(** * A shallow embedding of the market-data loader [util.py] and the
    moving-average annotator [sma.py].

    The filesystem is a small world: a list of existing directories, a list
    of files (directory, name, table), a clock and a trace of the filesystem
    operations performed.  The Python functions become programs in a
    state-and-exception monad over that world. *)

From Stdlib Require Import String Ascii List ZArith QArith Lia Bool.
From Stdlib Require Import Numbers.DecimalString Numbers.DecimalZ.
From Stdlib Require Numbers.DecimalPos Numbers.DecimalFacts.
From Stdlib Require Import Sorting.Sorted Sorting.Permutation.
Import ListNotations.
Open Scope list_scope.
Open Scope string_scope.

(** ** Python string operations used by the loader *)
Module Py.

Definition char_eqb (a b : ascii) : bool := Ascii.eqb a b.

(** [str(z)] for an [int]. *)
Definition str_of_Z (z : Z) : string := NilEmpty.string_of_int (Z.to_int z).

(** Strings are Python [str] values whose code points lie below 256, one
    [ascii] per code point. *)

(** The characters [int()] skips around the digits: ASCII whitespace
    (tab to carriage return, space) and U+0085, U+00A0, which CPython turns
    into spaces before parsing a non-ASCII string. *)
Definition py_space (c : ascii) : bool :=
  let n := nat_of_ascii c in
  ((9 <=? n) && (n <=? 13) || (n =? 32) || (n =? 133) || (n =? 160))%nat.

Definition is_dec (c : ascii) : bool :=
  let n := nat_of_ascii c in ((48 <=? n) && (n <=? 57))%nat.

Fixpoint lstrip_space (s : string) : string :=
  match s with
  | String c r => if py_space c then lstrip_space r else s
  | EmptyString => EmptyString
  end.

(** The run of digits and [_] at the front of [s], and the rest. *)
Fixpoint span_num (s : string) : string * string :=
  match s with
  | String c r =>
      if is_dec c || char_eqb c "_" then
        let '(a, b) := span_num r in (String c a, b)
      else (EmptyString, s)
  | EmptyString => (EmptyString, EmptyString)
  end.

(** No two [_] in a row and none at the end ([prev]: the character before). *)
Fixpoint seps_ok (prev : ascii) (s : string) : bool :=
  match s with
  | EmptyString => negb (char_eqb prev "_")
  | String c r => negb (char_eqb c "_" && char_eqb prev "_") && seps_ok c r
  end.

Fixpoint drop_seps (s : string) : string :=
  match s with
  | EmptyString => EmptyString
  | String c r => if char_eqb c "_" then drop_seps r else String c (drop_seps r)
  end.

Fixpoint all_space (s : string) : bool :=
  match s with
  | EmptyString => true
  | String c r => py_space c && all_space r
  end.

Definition startswith_char (c : ascii) (s : string) : bool :=
  match s with
  | String a _ => char_eqb a c
  | EmptyString => false
  end.

(** [sys.get_int_max_str_digits()] at its default. *)
Definition int_max_str_digits : nat := 4300.

(** [int(s)] ([PyLong_FromUnicodeObject(s, 10)]): leading whitespace, an
    optional sign, decimal digits with single [_] separators between
    digits, trailing whitespace; more than [int_max_str_digits] digits raise
    [ValueError] too.  [None] is the [ValueError]. *)
(** The optional sign: negative or not, and the rest. *)
Definition split_sign (s : string) : bool * string :=
  match s with
  | String c r =>
      if char_eqb c "-" then (true, r)
      else if char_eqb c "+" then (false, r)
      else (false, s)
  | EmptyString => (false, EmptyString)
  end.

Definition int_of_str (s : string) : option Z :=
  let '(neg, s2) := split_sign (lstrip_space s) in
  let '(body, rest) := span_num s2 in
  let ds := drop_seps body in
  if (body =? EmptyString) || startswith_char "_" body || negb (seps_ok "0" body)
     || negb (all_space rest) then None
  else if (int_max_str_digits <? String.length ds)%nat then None
  else option_map (fun u => if neg then Z.opp (Z.of_uint u) else Z.of_uint u)
                  (NilEmpty.uint_of_string ds).

(** [s.startswith(p)] *)
Fixpoint startswith (p s : string) : bool :=
  match p, s with
  | EmptyString, _ => true
  | String a p', String b s' => char_eqb a b && startswith p' s'
  | String _ _, EmptyString => false
  end.

(** [sub in s] *)
Fixpoint contains (sub s : string) : bool :=
  startswith sub s ||
  match s with
  | EmptyString => false
  | String _ s' => contains sub s'
  end.

Fixpoint rev_app (s acc : string) : string :=
  match s with
  | EmptyString => acc
  | String a s' => rev_app s' (String a acc)
  end.

Definition srev (s : string) : string := rev_app s EmptyString.

(** [s.endswith(t)] *)
Definition endswith (t s : string) : bool := startswith (srev t) (srev s).

(** [s.split(c)] for a one-character separator. *)
Fixpoint split_on (c : ascii) (s : string) : list string :=
  match s with
  | EmptyString => [EmptyString]
  | String a r =>
      let rest := split_on c r in
      if char_eqb a c then EmptyString :: rest
      else match rest with
           | p :: ps => String a p :: ps
           | [] => [String a EmptyString]
           end
  end.

(** Cut [s] at the first [c]: [(before, after)]. *)
Fixpoint break_at (c : ascii) (s : string) : option (string * string) :=
  match s with
  | EmptyString => None
  | String a r =>
      if char_eqb a c then Some (EmptyString, r)
      else option_map (fun '(x, y) => (String a x, y)) (break_at c r)
  end.

(** [s.split(c, n)]: at most [n] splits from the left. *)
Fixpoint splitn (c : ascii) (n : nat) (s : string) : list string :=
  match n with
  | O => [s]
  | S n' =>
      match break_at c s with
      | None => [s]
      | Some (x, y) => x :: splitn c n' y
      end
  end.

(** [s.rsplit(c, n)]: at most [n] splits from the right. *)
Definition rsplitn (c : ascii) (n : nat) (s : string) : list string :=
  rev (map srev (splitn c n (srev s))).

(** [s.replace(old, new)] (non-overlapping, left to right; [old] non-empty). *)
Fixpoint replace_aux (fuel : nat) (old new s : string) : string :=
  match fuel with
  | O => s
  | S f =>
      if startswith old s then
        new ++ replace_aux f old new (substring (String.length old) (String.length s) s)
      else match s with
           | EmptyString => EmptyString
           | String a s' => String a (replace_aux f old new s')
           end
  end.

Definition replace (old new s : string) : string :=
  replace_aux (S (String.length s)) old new s.

(** [sep.join(xs)] *)
Fixpoint join (sep : string) (xs : list string) : string :=
  match xs with
  | [] => EmptyString
  | [x] => x
  | x :: xs' => x ++ sep ++ join sep xs'
  end.

Definition lower_char (a : ascii) : ascii :=
  let n := nat_of_ascii a in
  if (65 <=? n)%nat && (n <=? 90)%nat then ascii_of_nat (n + 32) else a.

Definition upper_char (a : ascii) : ascii :=
  let n := nat_of_ascii a in
  if (97 <=? n)%nat && (n <=? 122)%nat then ascii_of_nat (n - 32) else a.

Fixpoint lower (s : string) : string :=
  match s with
  | EmptyString => EmptyString
  | String a s' => String (lower_char a) (lower s')
  end.

(** [s.capitalize()]: first character upper case, the rest lower case. *)
Definition capitalize (s : string) : string :=
  match s with
  | EmptyString => EmptyString
  | String a s' => String (upper_char a) (lower s')
  end.

(** [os.path.join(a, b)] *)
Definition path_join (a b : string) : string :=
  if startswith "/" b then b
  else if (a =? EmptyString) || endswith "/" a then a ++ b
  else a ++ "/" ++ b.

(** [fnmatch] of a file name against a pattern whose only wildcard is [*]
    ([?] and [[...]], absent from the loader's patterns for ordinary symbol
    names, are matched literally here). *)
Fixpoint gmatch (p s : string) : bool :=
  match p with
  | EmptyString => match s with EmptyString => true | _ => false end
  | String "*" p' =>
      (fix star (s : string) : bool :=
         gmatch p' s || match s with
                        | EmptyString => false
                        | String _ s' => star s'
                        end) s
  | String c p' =>
      match s with
      | String d s' => char_eqb c d && gmatch p' s'
      | EmptyString => false
      end
  end.

(** Stable insertion sort, as [list.sort()] with a key order. *)
Fixpoint insert_by {A} (le : A -> A -> bool) (x : A) (l : list A) : list A :=
  match l with
  | [] => [x]
  | y :: l' => if le x y then x :: l else y :: insert_by le x l'
  end.

Fixpoint sort_by {A} (le : A -> A -> bool) (l : list A) : list A :=
  match l with
  | [] => []
  | x :: l' => insert_by le x (sort_by le l')
  end.

(** [sorted(names)] and [sorted(names, reverse=True)] *)
Definition sorted_asc (l : list string) : list string := sort_by String.leb l.
Definition sorted_desc (l : list string) : list string :=
  sort_by (fun a b => String.leb b a) l.

End Py.

Import Py.

(** ** Tables *)

(** One row of a kline table: [symbol], [time], [Close] and the remaining
    columns folded into one payload value. *)
Record row := mkRow {
  symbol : string;
  time : Z;
  Close : Q;
  payload : Z
}.

(** A DataFrame: its column labels and its rows (the index is the position
    in the list, so [reset_index(drop=True)] is implicit). *)
Record frame := mkFrame {
  f_cols : list string;
  f_rows : list row
}.

(** Column union of [pd.concat] (labels in order of first appearance). *)
Fixpoint union_cols (acc : list string) (cs : list string) : list string :=
  match cs with
  | [] => acc
  | c :: cs' =>
      if existsb (String.eqb c) acc then union_cols acc cs'
      else union_cols (acc ++ [c])%list cs'
  end.

(** [pd.concat(dfs, ignore_index=True)] *)
Definition concat_frames (dfs : list frame) : frame :=
  mkFrame (fold_left (fun acc df => union_cols acc (f_cols df)) dfs [])
          (flat_map f_rows dfs).

(** [if len(dfs) == 1: df = dfs[0] else: df = pd.concat(dfs, ignore_index=True)] *)
Definition combine_dfs (dfs : list frame) : frame :=
  match dfs with
  | [df] => df
  | _ => concat_frames dfs
  end.

(** Order of [sort_values(['symbol', 'time'])]: lexicographic on
    (symbol, time).  A multi-column [sort_values] is a stable lexsort. *)
Definition row_le (a b : row) : bool :=
  match String.compare (symbol a) (symbol b) with
  | Lt => true
  | Gt => false
  | Eq => (time a <=? time b)%Z
  end.

(** [df.sort_values(['symbol', 'time']).reset_index(drop=True)] *)
Definition sort_values (df : frame) : frame :=
  mkFrame (f_cols df) (sort_by row_le (f_rows df)).

(** ** The world: filesystem, clock and trace *)

Inductive fsop :=
| OpExists (p : string)
| OpMakedirs (p : string)
| OpListdir (p : string)
| OpGlob (d pat : string)
| OpRead (d n : string)
| OpWrite (d n : string)
| OpRemove (d n : string).

Record world := mkWorld {
  w_dirs : list string;                      (* existing directories *)
  w_files : list (string * string * frame);  (* (directory, name, content) *)
  w_now : Z;                                 (* datetime.now(), whole seconds, UTC *)
  w_trace : list fsop                        (* newest operation first *)
}.

Inductive exn :=
| ValueError (msg : string)
| FileNotFoundError (msg : string)
| RuntimeError (inner : exn)     (* RuntimeError(f"...{str(e)}") *)
| TypeError (msg : string)
| OverflowError (msg : string).

Inductive res (A : Type) :=
| Ok (a : A)
| Err (e : exn).
Arguments Ok {A} a.
Arguments Err {A} e.

Definition M (A : Type) : Type := world -> res A * world.

Definition ret {A} (a : A) : M A := fun w => (Ok a, w).
Definition throw {A} (e : exn) : M A := fun w => (Err e, w).
Definition bind {A B} (m : M A) (k : A -> M B) : M B :=
  fun w => match m w with
           | (Ok a, w') => k a w'
           | (Err e, w') => (Err e, w')
           end.

Notation "x <- m ;; k" := (bind m (fun x => k))
  (at level 61, m at next level, right associativity).
Notation "m ;;; k" := (bind m (fun _ => k))
  (at level 61, right associativity).

(** [try: ... except Exception as e: raise RuntimeError(f"...{str(e)}")] *)
Definition wrap_runtime {A} (m : M A) : M A :=
  fun w => match m w with
           | (Err e, w') => (Err (RuntimeError e), w')
           | r => r
           end.

Definition record (op : fsop) (w : world) : world :=
  mkWorld (w_dirs w) (w_files w) (w_now w) (op :: w_trace w).

Definition files_in (d : string) (w : world) : list (string * frame) :=
  map (fun '(_, n, f) => (n, f))
      (filter (fun '(d', _, _) => String.eqb d' d) (w_files w)).

(** [os.path.exists(p)] (for the directories the loader probes) *)
Definition os_exists (p : string) : M bool :=
  fun w => (Ok (existsb (String.eqb p) (w_dirs w)), record (OpExists p) w).

(** [os.makedirs(p)] *)
Definition os_makedirs (p : string) : M unit :=
  fun w => (Ok tt, record (OpMakedirs p)
                      (mkWorld (w_dirs w ++ [p])%list (w_files w) (w_now w) (w_trace w))).

(** [os.listdir(d)] (the files of [d]) *)
Definition os_listdir (d : string) : M (list string) :=
  fun w => (Ok (map fst (files_in d w)), record (OpListdir d) w).

(** [glob.glob(os.path.join(d, pat))]: the names in [d] matching [pat];
    names starting with a dot are skipped unless [pat] starts with one.
    Names are returned without the directory prefix: every caller either
    takes the basename or sorts paths that share that prefix. *)
Definition glob (d pat : string) : M (list string) :=
  fun w =>
    let hidden (n : string) := startswith "." n && negb (startswith "." pat) in
    (Ok (filter (fun n => gmatch pat n && negb (hidden n)) (map fst (files_in d w))),
     record (OpGlob d pat) w).

(** [pd.read_parquet(os.path.join(d, n))] *)
Definition read_parquet (d n : string) : M frame :=
  fun w =>
    match find (fun '(d', n', _) => String.eqb d' d && String.eqb n' n) (w_files w) with
    | Some (_, _, f) => (Ok f, record (OpRead d n) w)
    | None => (Err (FileNotFoundError (path_join d n)), record (OpRead d n) w)
    end.

(** [df.to_parquet(os.path.join(d, n), index=False)] (replaces a file of
    the same name) *)
Definition to_parquet (d n : string) (f : frame) : M unit :=
  fun w =>
    let others := filter (fun '(d', n', _) => negb (String.eqb d' d && String.eqb n' n))
                         (w_files w) in
    (Ok tt, record (OpWrite d n)
                   (mkWorld (w_dirs w) (others ++ [(d, n, f)])%list (w_now w) (w_trace w))).

(** [os.remove(os.path.join(d, n))] *)
Definition os_remove (d n : string) : M unit :=
  fun w =>
    let others := filter (fun '(d', n', _) => negb (String.eqb d' d && String.eqb n' n))
                         (w_files w) in
    (Ok tt, record (OpRemove d n) (mkWorld (w_dirs w) others (w_now w) (w_trace w))).

(** [int(datetime.now().timestamp())] *)
Definition get_now : M Z := fun w => (Ok (w_now w), w).

(** [for x in xs: body(x)] *)
Fixpoint for_each {A} (xs : list A) (body : A -> M unit) : M unit :=
  match xs with
  | [] => ret tt
  | x :: xs' => body x ;;; for_each xs' body
  end.

(** ** [remove_old_cache] *)

(** [datetime.fromtimestamp(ts)] with the local zone set to UTC:
    [OverflowError] beyond the platform's 64-bit [time_t]; otherwise
    [ValueError] or [OSError] (both caught by the sweep, one constructor
    here) when the result falls outside the years 1..9999; otherwise the
    time itself, in seconds on the same clock as [datetime.now()].  The
    lower bound is 0001-01-02: CPython also converts [ts - 86400] to
    detect a fold, and that probe fails for any earlier time. *)
Inductive ft_result := FtOk (t : Z) | FtValueError | FtOverflow.

Definition min_ts : Z := (-62135510400)%Z.   (* 0001-01-02T00:00:00 *)
Definition max_ts : Z := 253402300799%Z.     (* 9999-12-31T23:59:59 *)

Definition fromtimestamp (ts : Z) : ft_result :=
  if ((ts <? - 2 ^ 63) || (2 ^ 63 <=? ts))%Z then FtOverflow
  else if ((ts <? min_ts) || (max_ts <? ts))%Z then FtValueError
  else FtOk ts.

(** The body of the loop over [os.listdir(folder)]. *)
Definition sweep_one (folder : string) (threshold : Z) (filename : string) : M unit :=
  if negb (endswith ".parquet" filename) then ret tt
  else
    let parts := rsplitn "." 2 filename in
    if (3 <=? List.length parts)%nat then
      match int_of_str (nth (List.length parts - 2) parts EmptyString) with
      | None => ret tt                                   (* ValueError *)
      | Some ts =>
          match fromtimestamp ts with
          | FtOverflow => throw (OverflowError "timestamp out of range for platform time_t")
          | FtValueError => ret tt                       (* ValueError *)
          | FtOk file_time =>
              if (file_time <? threshold)%Z then os_remove folder filename
              else ret tt
          end
      end
    else ret tt.

Definition remove_old_cache (folder : string) (older_than_days : Z) : M unit :=
  e <- os_exists folder ;;
  if negb e then ret tt
  else
    now <- get_now ;;
    let threshold := (now - older_than_days * 86400)%Z in
    names <- os_listdir folder ;;
    for_each names (sweep_one folder threshold).

(** ** [load_kline] *)

Definition BASE_DIR : string := "/trade_data".

Definition valid_timeframes : list string :=
  ["1m"; "3m"; "5m"; "15m"; "30m"; "1h"; "4h"; "8h"; "12h"; "1d"].

Definition kline_dir (source market market_sub : string) : string :=
  if market =? "spot" then
    path_join (path_join (path_join BASE_DIR source) market) "aggTrades_kline"
  else
    path_join (path_join (path_join (path_join BASE_DIR source) market) market_sub)
              "aggTrades_kline".

Definition cache_dir_of (dir_path : string) : string := path_join dir_path "_cache".

(** ['_'.join(map(str, years_for_cache))] *)
Definition years_key (years : option (list Z)) : string :=
  match years with
  | None => "all"
  | Some ys => join "_" (map str_of_Z ys)
  end.

(** [f"{symbol}_{timeframe}-{years}.*.parquet"] *)
Definition cache_pattern (sym tf ykey : string) : string :=
  sym ++ "_" ++ tf ++ "-" ++ ykey ++ ".*.parquet".

(** [f"{symbol}_{timeframe}-{years}.{ts}.parquet"] *)
Definition cache_name (sym tf ykey : string) (ts : Z) : string :=
  sym ++ "_" ++ tf ++ "-" ++ ykey ++ "." ++ str_of_Z ts ++ ".parquet".

(** The cache lookup loop (lines 297-309): [Some cached_dfs] when every
    symbol is cached ([all_cached]), [None] at the first miss ([break]). *)
Fixpoint lookup_cache (cache_dir tf ykey : string) (syms : list string)
  : M (option (list frame)) :=
  match syms with
  | [] => ret (Some [])
  | sym :: rest =>
      cached_files <- glob cache_dir (cache_pattern sym tf ykey) ;;
      match sorted_desc cached_files with
      | cached_file :: _ =>
          df_cached <- read_parquet cache_dir cached_file ;;
          r <- lookup_cache cache_dir tf ykey rest ;;
          ret (option_map (cons df_cached) r)
      | [] => ret None
      end
  end.

(** [any(f"_{year}." in filename or f"_{year}-" in filename for year in years_str)] *)
Definition year_match (years_str : list string) (filename : string) : bool :=
  existsb (fun y => contains ("_" ++ y ++ ".") filename
                    || contains ("_" ++ y ++ "-") filename) years_str.

Fixpoint read_all (d : string) (names : list string) : M (list frame) :=
  match names with
  | [] => ret []
  | n :: ns => df <- read_parquet d n ;; dfs <- read_all d ns ;; ret (df :: dfs)
  end.

(** One iteration of the source loop (lines 325-373): [None] for
    [continue], [Some symbol_df] for a symbol that was loaded (and cached). *)
Definition load_symbol (dir_path cache_dir tf : string) (years : option (list Z))
  (ykey : string) (ts : Z) (sym : string) : M (option frame) :=
  let symbol_dir := path_join dir_path sym in
  e <- os_exists symbol_dir ;;
  if negb e then ret None
  else
    matching_files <- glob symbol_dir (sym ++ "_kline_" ++ tf ++ "_*.parquet") ;;
    match matching_files with
    | [] => ret None
    | _ =>
      let matching_files :=
        match years with
        | None => matching_files
        | Some ys => filter (year_match (map str_of_Z ys)) matching_files
        end in
      match matching_files with
      | [] => ret None
      | _ =>
        symbol_dfs <- read_all symbol_dir (sorted_asc matching_files) ;;
        match symbol_dfs with
        | [] => ret None
        | _ =>
          let symbol_df := combine_dfs symbol_dfs in
          to_parquet cache_dir (cache_name sym tf ykey ts) symbol_df ;;;
          ret (Some symbol_df)
        end
      end
    end.

Fixpoint load_symbols (dir_path cache_dir tf : string) (years : option (list Z))
  (ykey : string) (ts : Z) (syms : list string) : M (list frame) :=
  match syms with
  | [] => ret []
  | sym :: rest =>
      r <- load_symbol dir_path cache_dir tf years ykey ts sym ;;
      all_dfs <- load_symbols dir_path cache_dir tf years ykey ts rest ;;
      ret (match r with Some df => df :: all_dfs | None => all_dfs end)
  end.

(** Lines 320-391: the rebuild from source files. *)
Definition rebuild (dir_path cache_dir tf : string) (years : option (list Z))
  (ykey : string) (ts : Z) (syms : list string) : M frame :=
  wrap_runtime (
    all_dfs <- load_symbols dir_path cache_dir tf years ykey ts syms ;;
    match all_dfs with
    | [] => throw (FileNotFoundError "No data found for symbols")
    | _ => ret (sort_values (combine_dfs all_dfs))
    end).

Definition load_kline (source market market_sub timeframe : string)
  (years : option (list Z)) (symbols : option (list string)) : M frame :=
  if negb (existsb (String.eqb timeframe) valid_timeframes) then
    throw (ValueError "Invalid timeframe")
  else
  match symbols with
  | None | Some [] => throw (ValueError "symbols parameter is required and cannot be empty")
  | Some syms =>
    let dir_path := kline_dir source market market_sub in
    e <- os_exists dir_path ;;
    if negb e then throw (FileNotFoundError dir_path)
    else
    let cache_dir := cache_dir_of dir_path in
    ce <- os_exists cache_dir ;;
    (if negb ce then os_makedirs cache_dir else ret tt) ;;;
    remove_old_cache cache_dir 1 ;;;
    let ykey := years_key years in
    ts <- get_now ;;
    cached <- lookup_cache cache_dir timeframe ykey syms ;;
    match cached with
    | Some cached_dfs => ret (sort_values (combine_dfs cached_dfs))
    | None => rebuild dir_path cache_dir timeframe years ykey ts syms
    end
  end.

(** ** [load_ticker_set_sma] ([sma.py]) *)

Definition qsum (xs : list Q) : Q := fold_right Qplus 0%Q xs.

Definition qmean (xs : list Q) : Q := qsum xs / inject_Z (Z.of_nat (List.length xs)).

(** [x.rolling(window=w, min_periods=1).mean()] on a series [x] (exact
    arithmetic stands for floating point). *)
Definition rolling_mean (w : nat) (x : list Q) : list Q :=
  map (fun j => qmean (skipn (S j - w) (firstn (S j) x))) (seq 0 (List.length x)).

Definition default_row : row := mkRow EmptyString 0 0 0.

(** [df.groupby('symbol')['Close'].transform(f)]: [f] is applied to each
    group's [Close] series (in table order) and the result is aligned back
    by index: row [k] gets the entry of its group's result at the position
    of row [k] inside its group. *)
Definition group_transform (f : list Q -> list Q) (rows : list row) : list Q :=
  map (fun k =>
         let s := symbol (nth k rows default_row) in
         let same := fun r => String.eqb (symbol r) s in
         nth (List.length (filter same (firstn k rows)))
             (f (map Close (filter same rows))) 0%Q)
      (seq 0 (List.length rows)).

(** The DataFrame returned by [load_ticker_set_sma]: the kline table with
    the columns [ma7], [ma25] and [ma99]. *)
Record sma_frame := mkSmaFrame {
  sm_df : frame;
  ma7 : list Q;
  ma25 : list Q;
  ma99 : list Q
}.

Definition load_ticker_set_sma (source market market_sub ticker : string)
  (years : option (list Z)) (symbols : option (list string)) : M sma_frame :=
  df <- load_kline source market market_sub ticker years symbols ;;
  ret (mkSmaFrame df
         (group_transform (rolling_mean 7) (f_rows df))
         (group_transform (rolling_mean 25) (f_rows df))
         (group_transform (rolling_mean 99) (f_rows df))).

(** ** [find_latest_file] *)

Open Scope Z_scope.

Definition digit_val (a : ascii) : option Z :=
  let n := nat_of_ascii a in
  if (48 <=? n)%nat && (n <=? 57)%nat then Some (Z.of_nat (n - 48)%nat) else None.

Fixpoint digits_val (s : string) (acc : Z) : option Z :=
  match s with
  | EmptyString => Some acc
  | String a s' =>
      match digit_val a with
      | Some v => digits_val s' (acc * 10 + v)%Z
      | None => None
      end
  end.

(** A field of [n] decimal digits at position [i] of [s]. *)
Definition field (i n : nat) (s : string) : option Z :=
  let t := substring i n s in
  if Nat.eqb (String.length t) n then digits_val t 0 else None.

Definition is_leap (y : Z) : bool :=
  ((y mod 4 =? 0) && negb (y mod 100 =? 0)) || (y mod 400 =? 0).

Definition days_in_month (y m : Z) : Z :=
  match m with
  | 2%Z => if is_leap y then 29 else 28
  | 4%Z | 6%Z | 9%Z | 11%Z => 30
  | _ => 31
  end.

Definition days_before_month (y m : Z) : Z :=
  fold_right Z.add 0%Z
    (map (fun k => days_in_month y (Z.of_nat k)) (seq 1 (Z.to_nat (m - 1)))).

(** Days since 0001-01-01 ([date.toordinal() - 1]). *)
Definition ordinal (y m d : Z) : Z :=
  ((y - 1) * 365 + (y - 1) / 4 - (y - 1) / 100 + (y - 1) / 400
   + days_before_month y m + d - 1)%Z.

(** A [datetime]: wall-clock microseconds since 0001-01-01 and an optional
    UTC offset in microseconds ([None] for a naive datetime). *)
Record datetime := mkDatetime {
  dt_wall : Z;
  dt_off : option Z
}.

Definition usec_per_day : Z := 86400 * 1000000.

(** The checks of [datetime(y, m, d)]. *)
Definition valid_date (y m d : Z) : bool :=
  ((1 <=? y) && (y <=? 9999) && (1 <=? m) && (m <=? 12)
   && (1 <=? d) && (d <=? days_in_month y m))%Z.

Definition mk_date (y m d : Z) : option Z :=
  if valid_date y m d then Some (ordinal y m d * usec_per_day)%Z else None.

Definition obind {A B} (o : option A) (f : A -> option B) : option B :=
  match o with Some a => f a | None => None end.

(** *** [datetime.strptime] for the formats ['%Y%m%d'] and ['%Y-%m-%d'] *)

(** One alternative of a group of [_strptime]'s regular expression: a
    sequence of character classes. *)
Definition re_alt := list (ascii -> bool).

Definition in_chars (cs : string) (c : ascii) : bool := contains (String c EmptyString) cs.

(** [\d]: in a [str] pattern the Unicode decimal digits, which below code
    point 256 are [0-9]. *)
Definition is_digit_ch (c : ascii) : bool :=
  match digit_val c with Some _ => true | None => false end.

(** The match of an alternative at the head of [s]: the matched text and
    the rest. *)
Fixpoint match_alt (a : re_alt) (s : string) : option (string * string) :=
  match a, s with
  | [], _ => Some (EmptyString, s)
  | k :: a', String c s' =>
      if k c then option_map (fun '(g, r) => (String c g, r)) (match_alt a' s') else None
  | _ :: _, EmptyString => None
  end.

(** [%m] is [(?P<m>1[0-2]|0[1-9]|[1-9])], [%d] is
    [(?P<d>3[01]|[12]\d|0[1-9]|[1-9]| [1-9])], alternatives tried in order. *)
Definition re_m : list re_alt :=
  [[in_chars "1"; in_chars "012"]; [in_chars "0"; in_chars "123456789"];
   [in_chars "123456789"]].

Definition re_d : list re_alt :=
  [[in_chars "3"; in_chars "01"]; [in_chars "12"; is_digit_ch];
   [in_chars "0"; in_chars "123456789"]; [in_chars "123456789"];
   [in_chars " "; in_chars "123456789"]].

Fixpoint first_some {A B} (f : A -> option B) (l : list A) : option B :=
  match l with
  | [] => None
  | x :: l' => match f x with Some b => Some b | None => first_some f l' end
  end.

(** The literal [sep] at the head of [s], and what follows it. *)
Definition lit (sep s : string) : option string :=
  if startswith sep s
  then Some (substring (String.length sep) (String.length s - String.length sep) s)
  else None.

(** [int(g)] of a matched [%m] or [%d] group (the day group [ [1-9]] starts
    with a space). *)
Definition group_val (g : string) : option Z :=
  match g with
  | String " " r => digits_val r 0
  | _ => digits_val g 0
  end.

(** [datetime.strptime(s, '%Y' + sep + '%m' + sep + '%d')]: [re.match] of
    the format's expression [(?P<Y>\d\d\d\d)] sep [%m] sep [%d] (the first
    match in backtracking order), [ValueError] when there is none or when
    it does not cover [s] ([unconverted data remains]), then
    [datetime(y, m, d)]. *)
Definition strptime_date (sep s : string) : option datetime :=
  obind (field 0 4 s) (fun y =>
  obind (lit sep (substring 4 (String.length s - 4) s)) (fun r1 =>
  obind (first_some (fun am =>
           obind (match_alt am r1) (fun '(gm, r2) =>
           obind (lit sep r2) (fun r3 =>
           option_map (fun '(gd, r4) => (gm, gd, r4))
                      (first_some (fun ad => match_alt ad r3) re_d)))) re_m)
        (fun '(gm, gd, r4) =>
     match r4 with
     | EmptyString =>
         obind (group_val gm) (fun m => obind (group_val gd) (fun d =>
         option_map (fun t => mkDatetime t None) (mk_date y m d)))
     | String _ _ => None
     end))).

(** [datetime.strptime(s, '%Y%m%d')] *)
Definition strptime_Ymd (s : string) : option datetime := strptime_date EmptyString s.

(** [datetime.strptime(s, '%Y-%m-%d')] *)
Definition strptime_Y_m_d (s : string) : option datetime := strptime_date "-" s.

(** *** [datetime.fromisoformat] *)

(** [datetime.fromisoformat] is the C function [datetime_fromisoformat] of
    [_datetimemodule.c] (CPython 3.11), which reads the UTF-8 bytes of its
    argument through a NUL-terminated buffer: [utf8] gives the bytes of a
    string of code points below 256, [byte_at] reads the buffer ([0] at
    and past the end). *)
Definition utf8 (s : string) : list Z :=
  flat_map (fun a => let c := Z.of_nat (nat_of_ascii a) in
                     if (c <? 128)%Z then [c] else [192 + c / 64; 128 + c mod 64]%Z)
           (list_ascii_of_string s).

Definition byte_at (b : list Z) (i : nat) : Z := nth i b 0%Z.

Definition is_digit (c : Z) : bool := (48 <=? c) && (c <=? 57).

(** [parse_digits(p, &v, n)]: [n] digits at [p]; the position after them
    and their value. *)
Fixpoint parse_digits (b : list Z) (p n : nat) (acc : Z) : option (nat * Z) :=
  match n with
  | O => Some (p, acc)
  | S n' =>
      let c := byte_at b p in
      if is_digit c then parse_digits b (S p) n' (acc * 10 + (c - 48)) else None
  end.

(** The first position at or after [idx] that holds no digit, looking at
    [fuel] positions at most. *)
Fixpoint digit_run (b : list Z) (idx fuel : nat) : nat :=
  match fuel with
  | O => idx
  | S f => if is_digit (byte_at b idx) then digit_run b (S idx) f else idx
  end.

(** [_find_isoformat_datetime_separator]: the length of the date part
    ([None] for its [-1]). *)
Definition find_sep (b : list Z) : option nat :=
  let len := List.length b in
  if (len =? 7)%nat then Some 7%nat
  else if byte_at b 4 =? 45 then
    if byte_at b 5 =? 87 then
      if (len <? 8)%nat then None
      else if (8 <? len)%nat && (byte_at b 8 =? 45) then
        if (len =? 9)%nat then None
        else if (10 <? len)%nat && is_digit (byte_at b 10) then Some 8%nat
        else Some 10%nat
      else Some 8%nat
    else Some 10%nat
  else if byte_at b 4 =? 87 then
    let idx := digit_run b 7 (len - 7) in
    if (idx <? 9)%nat then Some idx
    else if Nat.even idx then Some 7%nat else Some 8%nat
  else Some 8%nat.

(** [days_before_year] and [ymd_to_ord(y, 1, 1)], with C's division. *)
Definition c_days_before_year (y : Z) : Z :=
  let y1 := y - 1 in y1 * 365 + Z.quot y1 4 - Z.quot y1 100 + Z.quot y1 400.

Definition c_jan1_ord (y : Z) : Z := c_days_before_year y + 1.

(** [iso_week1_monday] *)
Definition iso_week1_monday (y : Z) : Z :=
  let first_day := c_jan1_ord y in
  let first_weekday := Z.rem (first_day + 6) 7 in
  let week1_monday := first_day - first_weekday in
  if 3 <? first_weekday then week1_monday + 7 else week1_monday.

(** [iso_to_ymd], as the ordinal ([date.toordinal()]) of the date it
    yields; [None] for a week or a weekday out of range. *)
Definition iso_to_ord (iso_year iso_week iso_day : Z) : option Z :=
  let week_ok :=
    if (iso_week <=? 0) || (53 <=? iso_week) then
      (iso_week =? 53) &&
      (let first_weekday := Z.rem (c_jan1_ord iso_year + 6) 7 in
       (first_weekday =? 3) || ((first_weekday =? 2) && is_leap iso_year))
    else true in
  if week_ok && (1 <=? iso_day) && (iso_day <=? 7)
  then Some (iso_week1_monday iso_year + (iso_week - 1) * 7 + iso_day - 1)
  else None.

(** [parse_isoformat_date] on the first [len] bytes: [inr (y, m, d)] for a
    calendar date, [inl o] for a week date on ordinal [o]. *)
Definition parse_isoformat_date (b : list Z) (len : nat) : option (Z + Z * Z * Z) :=
  obind (parse_digits b 0 4 0) (fun '(p, year) =>
  let uses_separator := byte_at b p =? 45 in
  let p := if uses_separator then S p else p in
  if byte_at b p =? 87 then
    obind (parse_digits b (S p) 2 0) (fun '(p, iso_week) =>
    obind (if (p <? len)%nat then
             if uses_separator && negb (byte_at b p =? 45) then None
             else option_map snd (parse_digits b (if uses_separator then S p else p) 1 0)
           else Some 1) (fun iso_day =>
    option_map inl (iso_to_ord year iso_week iso_day)))
  else
    obind (parse_digits b p 2 0) (fun '(p, month) =>
    if uses_separator && negb (byte_at b p =? 45) then None else
    obind (parse_digits b (if uses_separator then S p else p) 2 0) (fun '(_, day) =>
    Some (inr (year, month, day))))).

(** How the loop [for (i = 0; i < 3; ++i)] of [parse_hh_mm_ss_ff] ends: by
    a [return] ([HDone], [true] for a return value of 1), at the
    fractional part ([HFrac], its position), or by an error. *)
Inductive hms_out :=
| HDone (more : bool) (vals : list Z)
| HFrac (p : nat) (vals : list Z)
| HFail.

Fixpoint hms_loop (b : list Z) (p_end : nat) (has_separator : bool) (i k p : nat)
  (vals : list Z) : hms_out :=
  match k with
  | O => HFrac p vals
  | S k' =>
      match parse_digits b p 2 0 with
      | None => HFail
      | Some (p1, v) =>
          let vals := (vals ++ [v])%list in
          let c := byte_at b p1 in
          let has_separator := if (i =? 0)%nat then c =? 58 else has_separator in
          if (p_end <=? S p1)%nat then HDone (negb (c =? 0)) vals
          else if has_separator && (c =? 58) then hms_loop b p_end has_separator (S i) k' (S p1) vals
          else if (c =? 46) || (c =? 44) then HFrac (S p1) vals
          else if negb has_separator then hms_loop b p_end has_separator (S i) k' p1 vals
          else HFail
      end
  end.

Fixpoint skip_digits (b : list Z) (p fuel : nat) : nat :=
  match fuel with
  | O => p
  | S f => if is_digit (byte_at b p) then skip_digits b (S p) f else p
  end.

(** [parse_hh_mm_ss_ff] on the bytes from [p] to [p_end]:
    [Some (more, (h, m, s, us))], [more] for a return value of 1 (bytes
    remain), [None] for a negative one. *)
Definition parse_hh_mm_ss_ff (b : list Z) (p p_end : nat) : option (bool * (Z * Z * Z * Z)) :=
  let hms (v : list Z) := (nth 0 v 0, nth 1 v 0, nth 2 v 0) in
  match hms_loop b p_end true 0 3 p [] with
  | HFail => None
  | HDone more v => let '(h, m, s) := hms v in Some (more, (h, m, s, 0))
  | HFrac p v =>
      let to_parse := Nat.min 6 (p_end - p) in
      obind (parse_digits b p to_parse 0) (fun '(p, us) =>
        let p := skip_digits b p (List.length b) in
        let '(h, m, s) := hms v in
        Some (negb (byte_at b p =? 0), (h, m, s, us * 10 ^ Z.of_nat (6 - to_parse))))
  end.

(** The [do ... while (++tzinfo_pos < p_end)] search for [Z], [+] or [-],
    [n] rounds. *)
Fixpoint find_tz (b : list Z) (tz n : nat) : nat :=
  match n with
  | O => tz
  | S n' =>
      let c := byte_at b tz in
      if (c =? 90) || (c =? 43) || (c =? 45) then tz
      else match n' with O => S tz | S _ => find_tz b (S tz) n' end
  end.

(** [parse_isoformat_time] on [len] bytes from [p]: the time and the UTC
    offset in microseconds, if any. *)
Definition parse_isoformat_time (b : list Z) (p len : nat)
  : option ((Z * Z * Z * Z) * option Z) :=
  let p_end := (p + len)%nat in
  let tz := find_tz b p (Nat.max len 1) in
  obind (parse_hh_mm_ss_ff b p tz) (fun '(more, t) =>
  if (tz =? p_end)%nat then (if more then None else Some (t, None))
  else if byte_at b tz =? 90 then
    (if byte_at b (S tz) =? 0 then Some (t, Some 0) else None)
  else
    let tzsign := if byte_at b tz =? 45 then -1 else 1 in
    match parse_hh_mm_ss_ff b (S tz) p_end with
    | Some (false, (h, m, s, us)) =>
        Some (t, Some (tzsign * ((h * 3600 + m * 60 + s) * 1000000 + us)))
    | _ => None
    end).

(** The length of the UTF-8 sequence led by byte [c], as the separator is
    skipped. *)
Definition utf8_skip (c : Z) : nat :=
  if Z.land c 128 =? 0 then 1
  else if Z.land c 240 =? 224 then 3
  else if Z.land c 240 =? 240 then 4
  else 2.

(** [datetime.fromisoformat(s)]: the date, then, after one separator
    character, the time; then the checks of [new_datetime] (fields in
    range) and of [timezone] (an offset strictly within 24 hours).
    [None] stands for [ValueError]. *)
Definition fromisoformat (s : string) : option datetime :=
  let b := utf8 s in
  let len := List.length b in
  obind (find_sep b) (fun sl =>
  obind (parse_isoformat_date b sl) (fun dt =>
  obind (if (sl <? len)%nat then
           let p := (sl + utf8_skip (byte_at b sl))%nat in
           parse_isoformat_time b p (len - p)
         else Some ((0, 0, 0, 0), None)) (fun '((h, mi, se, us), off) =>
  obind (match dt with
         | inl o => if (1 <=? o) && (o <=? 3652059) then Some (o - 1) else None
         | inr (y, m, d) => if valid_date y m d then Some (ordinal y m d) else None
         end) (fun days =>
  if (h <? 24) && (mi <? 60) && (se <? 60) then
    let wall := days * usec_per_day + (h * 3600 + mi * 60 + se) * 1000000 + us in
    match off with
    | None => Some (mkDatetime wall None)
    | Some o =>
        if (- usec_per_day <? o) && (o <? usec_per_day) then Some (mkDatetime wall (Some o))
        else None
    end
  else None)))).

(** [a > b] on datetimes: comparing a naive and an aware datetime raises
    [TypeError]; aware datetimes compare as UTC instants. *)
Definition dt_gt (a b : datetime) : res bool :=
  match dt_off a, dt_off b with
  | None, None => Ok (dt_wall a >? dt_wall b)%Z
  | Some oa, Some ob => Ok (dt_wall a - oa >? dt_wall b - ob)%Z
  | _, _ => Err (TypeError "can't compare offset-naive and offset-aware datetimes")
  end.

(** The end date of a file name (lines 62-74); [None] when the name has
    fewer than four [_]-separated parts or the token does not parse
    ([ValueError]). *)
Definition end_date_of (filename : string) : option datetime :=
  let parts := split_on "_" (replace ".parquet" "" filename) in
  if (4 <=? List.length parts)%nat then
    let end_date_str := last parts EmptyString in
    if (String.length end_date_str =? 8)%nat then strptime_Ymd end_date_str
    else if (String.length end_date_str =? 10)%nat then strptime_Y_m_d end_date_str
    else fromisoformat (replace "_" "-" end_date_str)
  else None.

(** The loop of lines 61-81. *)
Fixpoint latest_loop (files : list string) (latest_file : option string)
  (latest_end_date : option datetime) : res (option string) :=
  match files with
  | [] => Ok latest_file
  | f :: fs =>
      match end_date_of f with
      | None => latest_loop fs latest_file latest_end_date
      | Some end_date =>
          match latest_end_date with
          | None => latest_loop fs (Some f) (Some end_date)
          | Some led =>
              match dt_gt end_date led with
              | Err e => Err e
              | Ok true => latest_loop fs (Some f) (Some end_date)
              | Ok false => latest_loop fs latest_file latest_end_date
              end
          end
      end
  end.

Definition find_latest_file (d pat : string) : M string :=
  matching_files <- glob d pat ;;
  match matching_files with
  | [] => throw (FileNotFoundError "No files found matching pattern")
  | _ =>
      match latest_loop matching_files None None with
      | Err e => throw e
      | Ok None => throw (FileNotFoundError "Could not find valid data files")
      | Ok (Some f) => ret f
      end
  end.

Close Scope Z_scope.

(** ** [load_parquet] *)

(** The column renaming of lines 178-180. *)
Definition rename_col (col : string) : string :=
  if existsb (String.eqb (lower col)) ["open"; "high"; "low"; "close"; "volume"]
  then capitalize col else col.

Definition rename_columns (df : frame) : frame :=
  mkFrame (map rename_col (f_cols df)) (f_rows df).

(** [f"{detail}"] for an optional string ([None] renders as ["None"]). *)
Definition fmt_opt (o : option string) : string :=
  match o with Some s => s | None => "None" end.

Definition load_parquet (source market market_sub data_type : string)
  (symbol : option string) (detail : option string) (years : option (list Z))
  : M frame :=
  match symbol with
  | None => throw (ValueError "symbol parameter is required")
  | Some sym =>
    let dir_path :=
      if market =? "spot" then
        path_join (path_join (path_join (path_join BASE_DIR source) market) data_type) sym
      else
        path_join (path_join (path_join (path_join (path_join BASE_DIR source) market)
                                        market_sub) data_type) sym in
    e <- os_exists dir_path ;;
    if negb e then throw (FileNotFoundError dir_path)
    else
    if data_type =? "aggTrades" then
      matching_files <- glob dir_path (sym ++ "_" ++ data_type ++ "_*.parquet") ;;
      match matching_files with
      | [] => throw (FileNotFoundError "No files found matching pattern")
      | _ =>
        let filtered :=
          match years with
          | None => matching_files
          | Some ys => filter (fun f => existsb (fun y => contains y f) (map str_of_Z ys))
                              matching_files
          end in
        match filtered with
        | [] => throw (FileNotFoundError "No files found for years")
        | _ =>
          wrap_runtime (dfs <- read_all dir_path (sorted_asc filtered) ;;
                        ret (combine_dfs dfs))
        end
      end
    else
      let file_name :=
        if data_type =? "depth" then sym ++ "_" ++ source ++ "_" ++ market ++ "_*_*.parquet"
        else if (data_type =? "trades") || (data_type =? "metrics")
        then sym ++ "_" ++ data_type ++ "_*_*.parquet"
        else sym ++ "_" ++ fmt_opt detail ++ "_*_*.parquet" in
      latest_file <- find_latest_file dir_path file_name ;;
      wrap_runtime (df <- read_parquet dir_path latest_file ;;
                    ret (rename_columns df))
  end.

(** ** [load_funding_rate] *)


(** ** [load_kline_symbols] *)







(** ** Example worlds *)

Definition kline_cols : list string := ["symbol"; "time"; "Open"; "High"; "Low"; "Close"].
Definition spot_dir : string := kline_dir "binance" "spot" "um".
Definition spot_cache : string := cache_dir_of spot_dir.
Definition btc_dir : string := path_join spot_dir "BTCUSDT".
Definition eth_dir : string := path_join spot_dir "ETHUSDT".

Definition btc_2024 : frame :=
  mkFrame kline_cols [mkRow "BTCUSDT" 20 42 1; mkRow "BTCUSDT" 10 40 2].
Definition btc_2025 : frame :=
  mkFrame kline_cols [mkRow "BTCUSDT" 40 95 3; mkRow "BTCUSDT" 30 90 4].
Definition eth_2025 : frame :=
  mkFrame kline_cols [mkRow "ETHUSDT" 30 3 5; mkRow "ETHUSDT" 40 4 6; mkRow "ETHUSDT" 50 8 7].

(** A source tree holding [BTCUSDT_kline_1m_2024.parquet] and
    [BTCUSDT_kline_1m_2025.parquet] (and one ETHUSDT file), no cache yet. *)
Definition world_src : world :=
  mkWorld [spot_dir; btc_dir; eth_dir]
    [(btc_dir, "BTCUSDT_kline_1m_2024.parquet", btc_2024);
     (btc_dir, "BTCUSDT_kline_1m_2025.parquet", btc_2025);
     (eth_dir, "ETHUSDT_kline_1m_2025.parquet", eth_2025)]
    1760000000 [].

Definition result_frame (r : res frame * world) : frame :=
  match fst r with Ok df => df | Err _ => mkFrame [] [] end.

Definition run_2025 := load_kline "binance" "spot" "um" "1m" (Some [2025%Z]) (Some ["BTCUSDT"]) world_src.

(** * Proofs *)

(** ** Monad reasoning *)

Lemma bind_inv {A B} (m : M A) (k : A -> M B) w r w' :
  bind m k w = (r, w') ->
  (exists a w1, m w = (Ok a, w1) /\ k a w1 = (r, w')) \/
  (exists e, m w = (Err e, w') /\ r = Err e).
Proof.
  unfold bind. destruct (m w) as [[a|e] w1]; intro H.
  - left. exists a, w1. auto.
  - right. inversion H; subst. eauto.
Qed.

Lemma bind_ok_inv {A B} (m : M A) (k : A -> M B) w b w' :
  bind m k w = (Ok b, w') ->
  exists a w1, m w = (Ok a, w1) /\ k a w1 = (Ok b, w').
Proof.
  intro H. destruct (bind_inv m k w _ _ H) as [H1|(e & _ & He)]; [exact H1|discriminate].
Qed.

Lemma wrap_runtime_ok {A} (m : M A) w a w' :
  wrap_runtime m w = (Ok a, w') -> m w = (Ok a, w').
Proof.
  unfold wrap_runtime. destruct (m w) as [[x|e] w1]; intro H; now inversion H.
Qed.

Lemma wrap_runtime_err {A} (m : M A) w e w' :
  wrap_runtime m w = (Err e, w') -> exists e', e = RuntimeError e'.
Proof.
  unfold wrap_runtime. destruct (m w) as [[x|e1] w1]; intro H; inversion H; eauto.
Qed.

Ltac peel H :=
  let a := fresh "a" in let w1 := fresh "w" in
  let H1 := fresh "Hm" in let H2 := fresh "Hk" in
  apply bind_ok_inv in H; destruct H as (a & w1 & H1 & H2).

Ltac peel_all :=
  repeat match goal with
         | H : bind _ _ _ = (Ok _, _) |- _ => peel H
         | H : (fun _ => _) _ _ = _ |- _ => cbv beta in H
         end.

(** ** Sorting *)

Section Sorting.
Variable A : Type.
Variable le : A -> A -> bool.
Hypothesis le_total : forall a b, le a b = false -> le b a = true.

Let R := fun a b => le a b = true.

Lemma insert_by_sorted x l : Sorted R l -> Sorted R (insert_by le x l).
Proof.
    induction 1 as [|y l Hs IH Hhd]; simpl.
    - repeat constructor.
    - destruct (le x y) eqn:Exy.
      + constructor; [constructor; auto | constructor; exact Exy].
      + constructor; [exact IH|].
        destruct l as [|z l]; simpl.
        * constructor. apply le_total; exact Exy.
        * destruct (le x z); constructor.
          -- apply le_total; exact Exy.
          -- inversion Hhd; assumption.
Qed.

Lemma sort_by_sorted l : Sorted R (sort_by le l).
Proof. induction l; simpl; [constructor | apply insert_by_sorted; auto]. Qed.

Lemma insert_by_perm x l : Permutation (x :: l) (insert_by le x l).
Proof.
    induction l as [|y l IH]; simpl; [auto|].
    destruct (le x y); [auto|].
    eapply perm_trans; [apply perm_swap|]. constructor. exact IH.
Qed.

Lemma sort_by_perm l : Permutation l (sort_by le l).
Proof.
    induction l as [|x l IH]; simpl; [auto|].
    eapply perm_trans; [|apply insert_by_perm]. constructor. exact IH.
Qed.
End Sorting.

Lemma sort_by_perm_any {A} (le : A -> A -> bool) l : Permutation l (sort_by le l).
Proof.
  induction l as [|x l IH]; simpl; [auto|].
  eapply perm_trans; [constructor; exact IH|].
  clear IH. generalize (sort_by le l) as l'. intro l'.
  induction l' as [|y l' IH]; simpl; [auto|].
  destruct (le x y); [auto|].
  eapply perm_trans; [apply perm_swap|]. constructor. exact IH.
Qed.

Lemma row_le_total a b : row_le a b = false -> row_le b a = true.
Proof.
  unfold row_le. rewrite (String.compare_antisym (symbol b) (symbol a)).
  destruct (String.compare (symbol a) (symbol b)); simpl; try discriminate; auto.
  intro H. apply Z.leb_gt in H. apply Z.leb_le. lia.
Qed.

(** [(symbol, time)] ascending. *)
Definition symbol_time_le (a b : row) : Prop :=
  String.compare (symbol a) (symbol b) = Lt \/
  (symbol a = symbol b /\ (time a <= time b)%Z).

Lemma row_le_spec a b : row_le a b = true -> symbol_time_le a b.
Proof.
  unfold row_le, symbol_time_le.
  destruct (String.compare (symbol a) (symbol b)) eqn:E; intro H; try discriminate; auto.
  right. split; [now apply String.compare_eq_iff | now apply Z.leb_le].
Qed.

Lemma Sorted_weaken {A} (R R' : A -> A -> Prop) l :
  (forall a b, R a b -> R' a b) -> Sorted R l -> Sorted R' l.
Proof.
  intros HR. induction 1 as [|x l Hs IH Hhd]; constructor; [exact IH|].
  destruct Hhd; constructor; auto.
Qed.

Lemma sort_values_sorted df : Sorted symbol_time_le (f_rows (sort_values df)).
Proof.
  unfold sort_values; simpl.
  eapply Sorted_weaken; [|apply (sort_by_sorted row _ row_le_total)].
  intros a b H. apply row_le_spec. exact H.
Qed.

Lemma throw_not_ok {A} (e : exn) w (a : A) w' : throw e w = (Ok a, w') -> False.
Proof. unfold throw. discriminate. Qed.

Lemma ret_ok_inv {A} (x a : A) w w' : ret x w = (Ok a, w') -> a = x /\ w' = w.
Proof. unfold ret. intro H. inversion H. auto. Qed.

(** Both ways out of [rebuild] that return a table go through
    [sort_values]. *)
Lemma rebuild_ok_sorted dir_path cache_dir tf years ykey ts syms w df w' :
  rebuild dir_path cache_dir tf years ykey ts syms w = (Ok df, w') ->
  exists dfs, df = sort_values (combine_dfs dfs).
Proof.
  unfold rebuild. intro H. apply wrap_runtime_ok in H. peel H.
  destruct a as [|d ds].
  - exfalso. eapply throw_not_ok; exact Hk.
  - apply ret_ok_inv in Hk as [-> _]. eauto.
Qed.

Lemma load_kline_ok_shape source market market_sub tf years symbols w df w' :
  load_kline source market market_sub tf years symbols w = (Ok df, w') ->
  exists dfs, df = sort_values (combine_dfs dfs).
Proof.
  unfold load_kline. intro H.
  destruct (negb (existsb (String.eqb tf) valid_timeframes));
    [exfalso; eapply throw_not_ok; exact H|].
  destruct symbols as [[|s0 syms0]|]; try (exfalso; eapply throw_not_ok; exact H).
  peel H. destruct (negb a); [exfalso; eapply throw_not_ok; exact Hk|].
  peel_all.
  match goal with H : match ?c with Some _ => _ | None => _ end _ = _ |- _ =>
    destruct c as [cached|]; [apply ret_ok_inv in H as [-> _]; eauto
                             | eapply rebuild_ok_sorted; exact H] end.
Qed.

(** ** C3 *)

(** C3: every table returned by [load_kline], from the cache or rebuilt from
    source files, has its rows sorted by (symbol, time) ascending (the row
    list is the reset index). *)
Theorem load_kline_sorted source market market_sub tf years symbols w df w' :
  load_kline source market market_sub tf years symbols w = (Ok df, w') ->
  Sorted symbol_time_le (f_rows df).
Proof.
  intro H. apply load_kline_ok_shape in H as [dfs ->]. apply sort_values_sorted.
Qed.

(** ** C6 *)

(** C6: a [load_kline] call with a timeframe outside
    {1m,3m,5m,15m,30m,1h,4h,8h,12h,1d}, or with [symbols] missing or empty,
    fails with [ValueError] leaving the world untouched (no filesystem
    operation in the trace); a [load_parquet] call with [symbol=None] fails
    with [ValueError] in the same way. *)
Theorem load_kline_rejects_before_fs :
  (forall w source market market_sub timeframe years symbols,
     (existsb (String.eqb timeframe) valid_timeframes = false
      \/ symbols = None \/ symbols = Some []) ->
     exists msg, load_kline source market market_sub timeframe years symbols w
                 = (Err (ValueError msg), w)) /\
  (forall w source market market_sub data_type detail years,
     exists msg, load_parquet source market market_sub data_type None detail years w
                 = (Err (ValueError msg), w)).
Proof.
  split.
  - intros w source market market_sub timeframe years symbols H. unfold load_kline.
    destruct (existsb (String.eqb timeframe) valid_timeframes) eqn:E; simpl.
    + destruct H as [H|[H|H]]; [congruence| |]; subst; eexists; reflexivity.
    + eexists; reflexivity.
  - intros. eexists. reflexivity.
Qed.

Definition empty_world : world := mkWorld [] [] 0 [].

Lemma load_kline_rejects_before_fs_witness :
  (existsb (String.eqb "2m") valid_timeframes = false \/ Some ["BTCUSDT"] = None
   \/ Some ["BTCUSDT"] = Some []) /\
  exists msg, load_kline "binance" "spot" "um" "2m" None (Some ["BTCUSDT"]) empty_world
              = (Err (ValueError msg), empty_world).
Proof.
  split; [left; reflexivity|].
  apply (proj1 load_kline_rejects_before_fs). left. reflexivity.
Defined.

Lemma load_kline_sorted_witness :
  run_2025 = (Ok (result_frame run_2025), snd run_2025) /\
  Sorted symbol_time_le (f_rows (result_frame run_2025)).
Proof.
  assert (H : run_2025 = (Ok (result_frame run_2025), snd run_2025))
    by (vm_compute; reflexivity).
  split; [exact H | exact (load_kline_sorted _ _ _ _ _ _ _ _ _ H)].
Defined.

(** ** C2 *)

(** The claim's window: the mean of [Close] over rows
    [max(0, i-(w-1)) .. i] of a symbol's block. *)
Definition window_mean_spec (w : nat) (blk : list row) (i : nat) : Q :=
  let lo := (i - (w - 1))%nat in
  qmean (map (fun k => Close (nth k blk default_row)) (seq lo (S i - lo)%nat)).

Lemma nth_map_lt {A B} (g : A -> B) (l : list A) k da db :
  (k < List.length l)%nat -> nth k (map g l) db = g (nth k l da).
Proof.
  revert k. induction l as [|x l IH]; intros [|k] Hk; simpl in *; try lia; auto.
  apply IH. lia.
Qed.

Lemma firstn_as_map {A} (l : list A) n d :
  (n <= List.length l)%nat -> firstn n l = map (fun k => nth k l d) (seq 0 n).
Proof.
  revert n. induction l as [|x l IH]; intros [|n] Hn; simpl in *; try lia; auto.
  f_equal. rewrite (IH n) by lia. rewrite <- seq_shift, map_map. reflexivity.
Qed.

Lemma skipn_map_seq {A} (g : nat -> A) lo n :
  (lo <= n)%nat -> skipn lo (map g (seq 0 n)) = map g (seq lo (n - lo)).
Proof.
  intro H. replace n with (lo + (n - lo))%nat at 1 by lia.
  rewrite seq_app, map_app, skipn_app, length_map, length_seq, Nat.sub_diag.
  simpl. rewrite skipn_all2 by (rewrite length_map, length_seq; lia). reflexivity.
Qed.

Lemma rolling_mean_nth w x i :
  (1 <= w)%nat -> (i < List.length x)%nat ->
  nth i (rolling_mean w x) 0%Q
  = qmean (map (fun k => nth k x 0%Q) (seq (i - (w - 1)) (S i - (i - (w - 1))))).
Proof.
  intros Hw Hi. unfold rolling_mean.
  rewrite (nth_map_lt _ _ _ 0%nat) by (rewrite length_seq; lia).
  rewrite seq_nth by lia. simpl plus.
  rewrite (firstn_as_map x (S i) 0%Q) by lia.
  replace (S i - w)%nat with (i - (w - 1))%nat by lia.
  rewrite skipn_map_seq by lia. reflexivity.
Qed.

Lemma filter_none {A} (p : A -> bool) l : Forall (fun x => p x = false) l -> filter p l = [].
Proof. induction 1; simpl; auto. now rewrite H. Qed.

Lemma filter_all {A} (p : A -> bool) l : Forall (fun x => p x = true) l -> filter p l = l.
Proof. induction 1; simpl; auto. rewrite H. now f_equal. Qed.

Lemma Forall_firstn' {A} (P : A -> Prop) n l : Forall P l -> Forall P (firstn n l).
Proof.
  revert n. induction l as [|x l IH]; intros [|n] H; simpl; auto.
  inversion H; subst. constructor; auto.
Qed.

Lemma group_transform_block f pre blk post s i :
  Forall (fun r => symbol r = s) blk ->
  Forall (fun r => symbol r <> s) pre ->
  Forall (fun r => symbol r <> s) post ->
  (i < List.length blk)%nat ->
  nth (List.length pre + i) (group_transform f (pre ++ blk ++ post)) 0%Q
  = nth i (f (map Close blk)) 0%Q.
Proof.
  intros Hb Hpre Hpost Hi. unfold group_transform.
  rewrite !length_app.
  rewrite (nth_map_lt _ _ _ 0%nat) by (rewrite length_seq; lia).
  rewrite seq_nth by lia. simpl plus.
  rewrite app_nth2 by lia. replace (List.length pre + i - List.length pre)%nat with i by lia.
  rewrite app_nth1 by lia.
  assert (Hs : symbol (nth i blk default_row) = s)
    by (rewrite Forall_forall in Hb; apply Hb, nth_In; lia).
  rewrite Hs.
  assert (Hne : forall l, Forall (fun r => symbol r <> s) l ->
                Forall (fun r => String.eqb (symbol r) s = false) l)
    by (intros l Hl; eapply Forall_impl; [|exact Hl]; intros r Hr; now apply String.eqb_neq).
  assert (Heq : Forall (fun r => String.eqb (symbol r) s = true) blk)
    by (eapply Forall_impl; [|exact Hb]; intros r Hr; now apply String.eqb_eq).
  rewrite firstn_app, firstn_all2 by lia.
  replace (List.length pre + i - List.length pre)%nat with i by lia.
  rewrite firstn_app. rewrite (proj2 (Nat.sub_0_le i (List.length blk))) by lia.
  rewrite firstn_O, app_nil_r.
  rewrite !filter_app, (filter_none _ pre) by auto.
  rewrite (filter_none _ post) by auto. rewrite app_nil_r. simpl.
  rewrite (filter_all _ blk) by exact Heq.
  rewrite filter_all by (apply Forall_firstn'; exact Heq).
  rewrite length_firstn. replace (Nat.min i (List.length blk)) with i by lia.
  reflexivity.
Qed.

Lemma group_rolling_window w pre blk post s i :
  (1 <= w)%nat ->
  Forall (fun r => symbol r = s) blk ->
  Forall (fun r => symbol r <> s) pre ->
  Forall (fun r => symbol r <> s) post ->
  (i < List.length blk)%nat ->
  nth (List.length pre + i) (group_transform (rolling_mean w) (pre ++ blk ++ post)) 0%Q
  = window_mean_spec w blk i.
Proof.
  intros Hw Hb Hpre Hpost Hi.
  rewrite (group_transform_block _ pre blk post s i) by assumption.
  rewrite rolling_mean_nth by (rewrite ?length_map; lia).
  unfold window_mean_spec. f_equal. apply map_ext_in.
  intros k Hk. apply in_seq in Hk.
  apply (nth_map_lt Close blk k default_row 0%Q). lia.
Qed.

(** C2: in every table returned by [load_ticker_set_sma], for a symbol
    whose rows form the contiguous block [blk] (preceded by [pre] and
    followed by [post], which hold no row of that symbol), the columns
    [ma7], [ma25] and [ma99] at the block's row [i] are the means of
    [Close] over the block's rows [max(0,i-6)..i], [max(0,i-24)..i] and
    [max(0,i-98)..i]. *)
Theorem load_ticker_set_sma_windows source market market_sub ticker years symbols
  w out w' pre blk post s i :
  load_ticker_set_sma source market market_sub ticker years symbols w = (Ok out, w') ->
  f_rows (sm_df out) = (pre ++ blk ++ post)%list ->
  Forall (fun r => symbol r = s) blk ->
  Forall (fun r => symbol r <> s) pre ->
  Forall (fun r => symbol r <> s) post ->
  (i < List.length blk)%nat ->
  nth (List.length pre + i) (ma7 out) 0%Q = window_mean_spec 7 blk i /\
  nth (List.length pre + i) (ma25 out) 0%Q = window_mean_spec 25 blk i /\
  nth (List.length pre + i) (ma99 out) 0%Q = window_mean_spec 99 blk i.
Proof.
  intros H Hrows Hb Hpre Hpost Hi. unfold load_ticker_set_sma in H. peel H.
  apply ret_ok_inv in Hk as [-> _]. simpl in *. rewrite Hrows.
  split; [|split]; apply (group_rolling_window _ pre blk post s i); auto; lia.
Qed.

Definition run_sma :=
  load_ticker_set_sma "binance" "spot" "um" "1m" (Some [2025%Z]) (Some ["ETHUSDT"; "BTCUSDT"])
    world_src.

Definition sma_result (r : res sma_frame * world) : sma_frame :=
  match fst r with Ok o => o | Err _ => mkSmaFrame (mkFrame [] []) [] [] [] end.

Lemma load_ticker_set_sma_windows_witness :
  nth 4 (ma7 (sma_result run_sma)) 0%Q
  = window_mean_spec 7 (skipn 2 (f_rows (sm_df (sma_result run_sma)))) 2 /\
  nth 4 (ma25 (sma_result run_sma)) 0%Q
  = window_mean_spec 25 (skipn 2 (f_rows (sm_df (sma_result run_sma)))) 2 /\
  nth 4 (ma99 (sma_result run_sma)) 0%Q
  = window_mean_spec 99 (skipn 2 (f_rows (sm_df (sma_result run_sma)))) 2.
Proof.
  apply (load_ticker_set_sma_windows "binance" "spot" "um" "1m" (Some [2025%Z])
           (Some ["ETHUSDT"; "BTCUSDT"]) world_src (sma_result run_sma) (snd run_sma)
           (firstn 2 (f_rows (sm_df (sma_result run_sma))))
           (skipn 2 (f_rows (sm_df (sma_result run_sma)))) [] "ETHUSDT" 2).
  - vm_compute. reflexivity.
  - vm_compute. reflexivity.
  - vm_compute. repeat constructor.
  - vm_compute. repeat constructor; discriminate.
  - constructor.
  - vm_compute. lia.
Defined.

(** ** C10 *)

Lemma lower_char_idem a : lower_char (lower_char a) = lower_char a.
Proof. destruct a as [[] [] [] [] [] [] [] []]; reflexivity. Qed.

Lemma upper_lower_char a : upper_char (lower_char a) = upper_char a.
Proof. destruct a as [[] [] [] [] [] [] [] []]; reflexivity. Qed.

Lemma lower_idem s : lower (lower s) = lower s.
Proof. induction s as [|a s IH]; simpl; [auto|]. now rewrite lower_char_idem, IH. Qed.

Lemma capitalize_lower c : capitalize (lower c) = capitalize c.
Proof. destruct c as [|a c]; simpl; [auto|]. now rewrite upper_lower_char, lower_idem. Qed.

Lemma read_parquet_ok d n w f w' :
  read_parquet d n w = (Ok f, w') -> In (d, n, f) (w_files w) /\ w_files w' = w_files w.
Proof.
  unfold read_parquet.
  destruct (find (fun '(d', n', _) => String.eqb d' d && String.eqb n' n) (w_files w))
    as [[[d' n'] f']|] eqn:E; intro H; inversion H; subst.
  apply find_some in E as [Hin Heq]. apply andb_prop in Heq as [H1 H2].
  apply String.eqb_eq in H1, H2. subst. auto.
Qed.

Lemma glob_files d p w r w' : glob d p w = (r, w') -> w_files w' = w_files w.
Proof. unfold glob. intro H. inversion H. reflexivity. Qed.

Lemma find_latest_file_files d p w r w' :
  find_latest_file d p w = (r, w') -> w_files w' = w_files w.
Proof.
  unfold find_latest_file, bind. destruct (glob d p w) as [[files|e] w1] eqn:E; intro H.
  - apply glob_files in E.
    destruct files; [unfold throw in H; inversion H; congruence|].
    destruct (latest_loop _ None None) as [[o|]|e]; try destruct o;
      unfold throw, ret in H; inversion H; congruence.
  - apply glob_files in E. inversion H. congruence.
Qed.

Lemma os_exists_inv p w r w' :
  os_exists p w = (r, w') -> r = Ok (existsb (String.eqb p) (w_dirs w)) /\
  w' = record (OpExists p) w.
Proof. unfold os_exists. intro H. inversion H. auto. Qed.

(** The content of file [n] of directory [d]. *)
Definition lookup_file (d n : string) (w : world) : option frame :=
  option_map snd (find (fun p => String.eqb (fst p) n) (files_in d w)).

Lemma find_files_in d n (l : list (string * string * frame)) :
  match find (fun '(d', n', _) => String.eqb d' d && String.eqb n' n) l with
  | Some (_, _, f) => Some f
  | None => None
  end =
  @option_map (string * frame) frame snd (find (fun p => String.eqb (fst p) n)
                   (map (fun '(_, n, f) => (n, f)) (filter (fun '(d', _, _) => String.eqb d' d) l))).
Proof.
  induction l as [|[[d' n'] f'] l IH]; simpl; [reflexivity|].
  destruct (String.eqb d' d); simpl; [|exact IH].
  destruct (String.eqb n' n); simpl; [reflexivity|exact IH].
Qed.

Lemma read_parquet_eq d n w :
  read_parquet d n w =
  (match lookup_file d n w with
   | Some f => Ok f
   | None => Err (FileNotFoundError (path_join d n))
   end, record (OpRead d n) w).
Proof.
  unfold read_parquet, lookup_file, files_in. rewrite <- find_files_in.
  destruct (find _ _) as [[[? ?] ?]|]; reflexivity.
Qed.

Lemma files_in_of d (w w' : world) : w_files w' = w_files w -> files_in d w' = files_in d w.
Proof. intro E. unfold files_in. rewrite E. reflexivity. Qed.

Lemma lookup_file_of d n (w w' : world) : w_files w' = w_files w -> lookup_file d n w' = lookup_file d n w.
Proof. intro E. unfold lookup_file. rewrite (files_in_of d w w' E). reflexivity. Qed.

Lemma read_all_lookup d ns w dfs w' :
  read_all d ns w = (Ok dfs, w') ->
  Forall2 (fun n f => lookup_file d n w = Some f) ns dfs /\ w_files w' = w_files w.
Proof.
  revert w dfs. induction ns as [|n ns IH]; intros w dfs H; simpl in H.
  - apply ret_ok_inv in H as [-> ->]. auto.
  - peel H. peel Hk. apply ret_ok_inv in Hk0 as [-> ->].
    rewrite read_parquet_eq in Hm.
    destruct (lookup_file d n w) as [f|] eqn:El; inversion Hm; subst.
    apply IH in Hm0 as [Hall Hf']. simpl in Hf'.
    split; [constructor; [exact El|]|exact Hf'].
    eapply Forall2_impl; [|exact Hall]. intros x y E. rewrite <- E. symmetry.
    apply lookup_file_of. reflexivity.
Qed.

Definition ohlcv : list string := ["open"; "high"; "low"; "close"; "volume"].

(** C10: a successful [load_parquet] call with a [data_type] other than
    [aggTrades] returns the rows of a file of the data directory with each
    column whose lower-case name is one of open, high, low, close, volume
    renamed to its capitalized form (Open, High, Low, Close, Volume) and
    every other column kept; with [aggTrades], the result is the
    concatenation of files of one directory, as they are stored: no column
    is renamed. *)
Theorem load_parquet_columns source market market_sub data_type sym detail years
  w df w' :
  load_parquet source market market_sub data_type (Some sym) detail years w = (Ok df, w') ->
  (data_type <> "aggTrades" ->
     exists d n f, In (d, n, f) (w_files w) /\
       f_cols df = map (fun c => if existsb (String.eqb (lower c)) ohlcv
                                 then capitalize (lower c) else c) (f_cols f) /\
       f_rows df = f_rows f) /\
  (data_type = "aggTrades" ->
     exists d ns dfs, Forall2 (fun n f => lookup_file d n w = Some f) ns dfs /\
       df = combine_dfs dfs).
Proof.
  intro H. unfold load_parquet in H. peel H.
  apply os_exists_inv in Hm as [Ha ->]. injection Ha as Ha. subst a.
  cbv beta in Hk.
  destruct (negb _); [exfalso; eapply throw_not_ok; exact Hk|].
  destruct (data_type =? "aggTrades") eqn:Eagg.
  - split; [intro Hne; apply String.eqb_eq in Eagg; contradiction|intros _].
    peel Hk. apply glob_files in Hm. cbv beta in Hk0.
    destruct a as [|f0 fs]; [exfalso; eapply throw_not_ok; exact Hk0|].
    match type of Hk0 with
    | (match ?x with [] => _ | _ :: _ => _ end) _ = _ => destruct x as [|g gs]
    end; [exfalso; eapply throw_not_ok; exact Hk0|].
    apply wrap_runtime_ok in Hk0. peel Hk0. apply ret_ok_inv in Hk as [-> _].
    apply read_all_lookup in Hm0 as [Hall _].
    do 3 eexists. split; [|reflexivity].
    eapply Forall2_impl; [|exact Hall]. intros n f E. rewrite <- E.
    symmetry. apply lookup_file_of. rewrite Hm. reflexivity.
  - split; [intros _|intro Heq; apply String.eqb_neq in Eagg; contradiction].
    peel Hk. apply find_latest_file_files in Hm. cbv beta in Hk0.
    apply wrap_runtime_ok in Hk0. peel Hk0. apply ret_ok_inv in Hk as [-> _].
    apply read_parquet_ok in Hm0 as [Hin _]. rewrite Hm in Hin. simpl in Hin.
    do 3 eexists. split; [exact Hin|]. unfold rename_columns, rename_col. simpl.
    split; [|reflexivity]. apply map_ext. intro c.
    rewrite capitalize_lower. reflexivity.
Qed.

Definition um_kline_dir : string :=
  path_join (path_join (path_join (path_join (path_join BASE_DIR "binance") "future") "um")
                       "kline") "BTCUSDT".

Definition bar_cols : list string := ["open_time"; "open"; "HIGH"; "Low"; "close"; "volume"; "count"].

Definition bars_0101 : frame := mkFrame bar_cols [mkRow "BTCUSDT" 1 10 0].
Definition bars_0115 : frame := mkFrame bar_cols [mkRow "BTCUSDT" 2 11 0].

(** Two 1h files that differ only in their end-date token. *)
Definition world_pq : world :=
  mkWorld [um_kline_dir]
    [(um_kline_dir, "BTCUSDT_1h_20240101_20250101.parquet", bars_0101);
     (um_kline_dir, "BTCUSDT_1h_20240101_20250115.parquet", bars_0115)]
    1760000000 [].

Definition run_pq :=
  load_parquet "binance" "future" "um" "kline" (Some "BTCUSDT") (Some "1h") None world_pq.

(** The latest-file resolution on [world_pq] picks the [20250115] file and
    renames [open], [HIGH], [Low], [close], [volume]. *)
Example load_parquet_picks_latest :
  run_pq = (Ok (mkFrame ["open_time"; "Open"; "High"; "Low"; "Close"; "Volume"; "count"]
                        (f_rows bars_0115)), snd run_pq).
Proof. vm_compute. reflexivity. Qed.

(** ** C4 *)

(** The same directory as [world_pq], but the newer file carries an ISO end
    date with a UTC offset: [2025-01-15T00:00+00:00]. *)
Definition world_pq_mixed : world :=
  mkWorld [um_kline_dir]
    [(um_kline_dir, "BTCUSDT_1h_20240101_20250101.parquet", bars_0101);
     (um_kline_dir, "BTCUSDT_1h_20240101_2025-01-15T00:00+00:00.parquet", bars_0115)]
    1760000000 [].

(** C4 (code bug): both end dates parse, yet the resolution of
    [load_parquet] does not return the file with the later end date nor a
    NotFound error: comparing the naive [20250101] date with the
    offset-aware ISO date raises [TypeError], which the loop (catching only
    [ValueError]) lets escape. *)
Theorem find_latest_file_mixed_offsets :
  end_date_of "BTCUSDT_1h_20240101_20250101.parquet" <> None /\
  end_date_of "BTCUSDT_1h_20240101_2025-01-15T00:00+00:00.parquet" <> None /\
  fst (find_latest_file um_kline_dir "BTCUSDT_1h_*_*.parquet" world_pq_mixed)
  = Err (TypeError "can't compare offset-naive and offset-aware datetimes") /\
  fst (load_parquet "binance" "future" "um" "kline" (Some "BTCUSDT") (Some "1h") None
         world_pq_mixed)
  = Err (TypeError "can't compare offset-naive and offset-aware datetimes").
Proof. vm_compute. repeat split; discriminate. Qed.

(** ** C5 *)

(** C5 (code bug): with no cache entry and no source data for [SOLUSDT], a
    [load_kline] call for [SOLUSDT] alone ends in the [FileNotFoundError]
    of line 376 wrapped by the [except Exception] of line 390 into a
    [RuntimeError]; with [BTCUSDT] added, [SOLUSDT] is skipped and the
    BTCUSDT rows are returned. *)
Theorem load_kline_no_data_wrapped :
  fst (load_kline "binance" "spot" "um" "1m" None (Some ["SOLUSDT"]) world_src)
  = Err (RuntimeError (FileNotFoundError "No data found for symbols")) /\
  fst (load_kline "binance" "spot" "um" "1m" (Some [2025%Z]) (Some ["SOLUSDT"; "BTCUSDT"])
         world_src)
  = Ok (sort_values btc_2025).
Proof. vm_compute. split; reflexivity. Qed.

(** Every error out of [rebuild] is a [RuntimeError]: the NotFound of
    line 376 never reaches the caller as such. *)
Lemma rebuild_err_wrapped dir_path cache_dir tf years ykey ts syms w e w' :
  rebuild dir_path cache_dir tf years ykey ts syms w = (Err e, w') ->
  exists e', e = RuntimeError e'.
Proof. unfold rebuild. apply wrap_runtime_err. Qed.

(** ** C1 *)

Definition cached_x : frame :=
  mkFrame kline_cols [mkRow "X" 1 7 9; mkRow "X" 2 8 9].

(** The cache directory (a subdirectory of the kline directory) holds a
    fresh entry of the symbol [_cache_kline_1m_X]; no entry for [_cache]. *)
Definition world_alias : world :=
  mkWorld [spot_dir; spot_cache]
    [(spot_cache, cache_name "_cache_kline_1m_X" "1m" "all" 1760000000, cached_x)]
    1760000000 [].

(** C1 (code bug): a call for the symbol [_cache] has a cache miss, so it
    rebuilds "from source"; but the symbol directory of [_cache] is the
    cache directory itself, whose entry matches
    [_cache_kline_1m_*.parquet]: the result consists of the rows of a
    cached table. *)
Theorem load_kline_cache_symbol_reads_cache :
  fst (lookup_cache spot_cache "1m" "all" ["_cache"] world_alias) = Ok None /\
  path_join spot_dir "_cache" = spot_cache /\
  fst (load_kline "binance" "spot" "um" "1m" None (Some ["_cache"]) world_alias)
  = Ok (sort_values cached_x).
Proof. vm_compute. repeat split; reflexivity. Qed.

(** ** Trace reasoning *)

(** [m] only appends operations satisfying [P] to the trace. *)
Definition emits {A} (P : fsop -> Prop) (m : M A) : Prop :=
  forall w r w', m w = (r, w') ->
  exists new, w_trace w' = (new ++ w_trace w)%list /\ Forall P new.

Lemma emits_ret {A} P (a : A) : emits P (ret a).
Proof. intros w r w' H. inversion H; subst. exists []. auto. Qed.

Lemma emits_throw {A} P e : emits P (@throw A e).
Proof. intros w r w' H. inversion H; subst. exists []. auto. Qed.

Lemma emits_bind {A B} P (m : M A) (k : A -> M B) :
  emits P m -> (forall a, emits P (k a)) -> emits P (bind m k).
Proof.
  intros Hm Hk w r w' H. unfold bind in H.
  destruct (m w) as [[a|e] w1] eqn:E.
  - destruct (Hm _ _ _ E) as (n1 & T1 & F1).
    destruct (Hk a _ _ _ H) as (n2 & T2 & F2).
    exists (n2 ++ n1)%list. rewrite T2, T1, app_assoc. split; [reflexivity|].
    apply Forall_app; auto.
  - inversion H; subst. exact (Hm _ _ _ E).
Qed.

Lemma emits_wrap {A} P (m : M A) : emits P m -> emits P (wrap_runtime m).
Proof.
  intros Hm w r w' H. unfold wrap_runtime in H.
  destruct (m w) as [[a|e] w1] eqn:E; inversion H; subst; exact (Hm _ _ _ E).
Qed.

Lemma emits_record {A} P op (r0 : A) w0 w r w' :
  P op -> (r0, record op w0) = (r, w') -> w_trace w0 = w_trace w ->
  exists new, w_trace w' = (new ++ w_trace w)%list /\ Forall P new.
Proof.
  intros HP H E. inversion H; subst. exists [op]. simpl. rewrite E. auto.
Qed.

Lemma emits_os_exists P p : P (OpExists p) -> emits P (os_exists p).
Proof. intros HP w r w' H. eapply emits_record; eauto. Qed.

Lemma emits_os_makedirs P p : P (OpMakedirs p) -> emits P (os_makedirs p).
Proof. intros HP w r w' H. eapply emits_record; eauto. Qed.

Lemma emits_os_listdir P d : P (OpListdir d) -> emits P (os_listdir d).
Proof. intros HP w r w' H. eapply emits_record; eauto. Qed.

Lemma emits_glob P d pat : P (OpGlob d pat) -> emits P (glob d pat).
Proof. intros HP w r w' H. eapply emits_record; eauto. Qed.

Lemma emits_read_parquet P d n : P (OpRead d n) -> emits P (read_parquet d n).
Proof.
  intros HP w r w' H. unfold read_parquet in H.
  destruct (find _ _) as [[[? ?] ?]|]; eapply emits_record; eauto.
Qed.

Lemma emits_to_parquet P d n f : P (OpWrite d n) -> emits P (to_parquet d n f).
Proof. intros HP w r w' H. eapply emits_record; eauto. Qed.

Lemma emits_os_remove P d n : P (OpRemove d n) -> emits P (os_remove d n).
Proof. intros HP w r w' H. eapply emits_record; eauto. Qed.

Lemma emits_get_now P : emits P get_now.
Proof. intros w r w' H. inversion H; subst. exists []. auto. Qed.

Lemma emits_read_all P d names :
  (forall n, In n names -> P (OpRead d n)) -> emits P (read_all d names).
Proof.
  induction names as [|n ns IH]; intro HP; simpl.
  - apply emits_ret.
  - apply emits_bind; [apply emits_read_parquet; apply HP; left; reflexivity|]. intro df.
    apply emits_bind; [apply IH; intros; apply HP; right; assumption|]. intro.
    apply emits_ret.
Qed.

Lemma in_sort_by {A} (le : A -> A -> bool) x l : In x (sort_by le l) -> In x l.
Proof. intro H. eapply Permutation_in; [symmetry; apply sort_by_perm_any|exact H]. Qed.

(** The source reads allowed with [years = Some ys]: a read in an allowed
    directory of a file name that passes the year filter. *)
Definition src_read (dir_ok : string -> Prop) (ys : list Z) (op : fsop) : Prop :=
  match op with
  | OpRead d n => dir_ok d /\ year_match (map str_of_Z ys) n = true
  | _ => True
  end.

Lemma load_symbol_emits dir_ok dir_path cache_dir tf ys ykey ts sym :
  dir_ok (path_join dir_path sym) ->
  emits (src_read dir_ok ys) (load_symbol dir_path cache_dir tf (Some ys) ykey ts sym).
Proof.
  intro Hd. unfold load_symbol.
  apply emits_bind; [apply emits_os_exists; exact I|]. intro e.
  destruct (negb e); [apply emits_ret|].
  apply emits_bind; [apply emits_glob; exact I|]. intro mf.
  destruct mf as [|m0 ms]; [apply emits_ret|].
  destruct (filter _ (m0 :: ms)) as [|f0 fs] eqn:Ef; [apply emits_ret|].
  apply emits_bind.
  - apply emits_read_all. intros n Hn. split; [exact Hd|].
    apply in_sort_by in Hn. rewrite <- Ef in Hn. apply filter_In in Hn. apply Hn.
  - intros dfs. destruct dfs; [apply emits_ret|].
    apply emits_bind; [apply emits_to_parquet; exact I|]. intro. apply emits_ret.
Qed.

Lemma load_symbols_emits dir_ok dir_path cache_dir tf ys ykey ts syms :
  (forall s, In s syms -> dir_ok (path_join dir_path s)) ->
  emits (src_read dir_ok ys) (load_symbols dir_path cache_dir tf (Some ys) ykey ts syms).
Proof.
  induction syms as [|s rest IH]; intro Hd; simpl; [apply emits_ret|].
  apply emits_bind; [apply load_symbol_emits; apply Hd; left; reflexivity|]. intro r.
  apply emits_bind; [apply IH; intros; apply Hd; right; assumption|]. intro.
  apply emits_ret.
Qed.

(** ** C7 *)

(** C7: in every rebuild with [years = Some ys], each file that is read
    is read from the directory of one of the requested symbols and its
    name contains [_{y}.] or [_{y}-] for a requested year [y]. *)
Theorem rebuild_reads_year_files dir_path cache_dir tf ys ykey ts syms w r w' :
  rebuild dir_path cache_dir tf (Some ys) ykey ts syms w = (r, w') ->
  exists new, w_trace w' = (new ++ w_trace w)%list /\
  forall d n, In (OpRead d n) new ->
    year_match (map str_of_Z ys) n = true /\
    exists s, In s syms /\ d = path_join dir_path s.
Proof.
  intro H.
  assert (He : emits (src_read (fun d => exists s, In s syms /\ d = path_join dir_path s) ys)
                 (rebuild dir_path cache_dir tf (Some ys) ykey ts syms)).
  { unfold rebuild. apply emits_wrap. apply emits_bind.
    - apply load_symbols_emits. intros s Hs. eauto.
    - intro dfs. destruct dfs; [apply emits_throw | apply emits_ret]. }
  destruct (He _ _ _ H) as (new & T & F). exists new. split; [exact T|].
  intros d n Hin. rewrite Forall_forall in F. destruct (F _ Hin) as [Hd Hy]. auto.
Qed.

(** The scenario of the source tree [world_src] (2024 and 2025 files for
    BTCUSDT, nothing cached): the rebuild for [years = [2025]] reads
    the 2025 file only, and [load_kline] returns the rows of that file. *)
Lemma rebuild_reads_year_files_witness :
  (exists new,
     w_trace (snd (rebuild spot_dir spot_cache "1m" (Some [2025%Z]) "2025" 1760000000
                     ["BTCUSDT"] world_src)) = (new ++ w_trace world_src)%list /\
     forall d n, In (OpRead d n) new ->
       year_match (map str_of_Z [2025%Z]) n = true /\
       exists s, In s ["BTCUSDT"] /\ d = path_join spot_dir s) /\
  fst (load_kline "binance" "spot" "um" "1m" (Some [2025%Z]) (Some ["BTCUSDT"]) world_src)
  = Ok (sort_values btc_2025).
Proof.
  split.
  - apply (rebuild_reads_year_files spot_dir spot_cache "1m" [2025%Z] "2025" 1760000000
             ["BTCUSDT"] world_src
             (fst (rebuild spot_dir spot_cache "1m" (Some [2025%Z]) "2025" 1760000000
                     ["BTCUSDT"] world_src))).
    destruct (rebuild _ _ _ _ _ _ _ _); reflexivity.
  - vm_compute. reflexivity.
Defined.

(** ** String lemmas *)

Lemma str_app_assoc (a b c : string) : ((a ++ b) ++ c)%string = (a ++ b ++ c)%string.
Proof. induction a as [|x a IH]; simpl; [reflexivity|now rewrite IH]. Qed.

Lemma str_app_nil (a : string) : (a ++ EmptyString)%string = a.
Proof. induction a as [|x a IH]; simpl; [reflexivity|now rewrite IH]. Qed.

Lemma rev_app_acc s acc : rev_app s acc = (rev_app s EmptyString ++ acc)%string.
Proof.
  revert acc. induction s as [|x s IH]; intro acc; simpl; [reflexivity|].
  rewrite (IH (String x acc)), (IH (String x EmptyString)), str_app_assoc. reflexivity.
Qed.

Lemma srev_app a b : srev (a ++ b) = (srev b ++ srev a)%string.
Proof.
  unfold srev.
  assert (G : forall acc, rev_app (a ++ b) acc = rev_app b (rev_app a acc)).
  { induction a as [|x a IH]; intro acc; simpl; [reflexivity|apply IH]. }
  rewrite G, rev_app_acc. reflexivity.
Qed.

Lemma srev_srev s : srev (srev s) = s.
Proof.
  induction s as [|x s IH]; [reflexivity|].
  change (srev (srev (String x s))) with (srev (rev_app s (String x EmptyString))).
  rewrite rev_app_acc. fold (srev s). rewrite srev_app, IH. reflexivity.
Qed.

Lemma startswith_app p z : startswith p (p ++ z) = true.
Proof.
  induction p as [|x p IH]; simpl; [reflexivity|].
  unfold char_eqb. rewrite Ascii.eqb_refl. exact IH.
Qed.

Lemma endswith_app t b : endswith t (b ++ t) = true.
Proof. unfold endswith. rewrite srev_app. apply startswith_app. Qed.

(** [c] occurs in [s]. *)
Fixpoint has_char (c : ascii) (s : string) : bool :=
  match s with
  | EmptyString => false
  | String a s' => char_eqb a c || has_char c s'
  end.

Lemma has_char_app c a b : has_char c (a ++ b) = has_char c a || has_char c b.
Proof. induction a as [|x a IH]; simpl; [reflexivity|]. rewrite IH, orb_assoc. reflexivity. Qed.

Lemma has_char_srev c s : has_char c (srev s) = has_char c s.
Proof.
  induction s as [|x s IH]; [reflexivity|].
  change (srev (String x s)) with (rev_app s (String x EmptyString)).
  rewrite rev_app_acc, has_char_app. fold (srev s). rewrite IH. simpl.
  rewrite orb_false_r, orb_comm. reflexivity.
Qed.

Lemma break_at_app c x y :
  has_char c x = false -> break_at c (x ++ String c y) = Some (x, y).
Proof.
  induction x as [|a x IH]; intro H; simpl.
  - unfold char_eqb. rewrite Ascii.eqb_refl. reflexivity.
  - simpl in H. apply orb_false_iff in H as [Ha Hx]. rewrite Ha, IH by exact Hx.
    reflexivity.
Qed.

(** [name.rsplit('.', 2)] of [base.T.parquet], [T] without a dot. *)
Lemma rsplit_cache_name base t :
  has_char "." t = false ->
  rsplitn "." 2 (base ++ "." ++ t ++ ".parquet") = [base; t; "parquet"].
Proof.
  intro Ht. unfold rsplitn.
  rewrite !srev_app.
  change (srev ".parquet") with ("teuqrap" ++ String "." EmptyString)%string.
  change (srev ".") with (String "." EmptyString).
  rewrite !str_app_assoc. simpl (String "." EmptyString ++ _)%string.
  simpl. rewrite (break_at_app "." (srev t)) by (rewrite has_char_srev; exact Ht).
  simpl. rewrite !srev_srev. reflexivity.
Qed.

Lemma has_char_uint c u :
  has_char c "0" = false -> has_char c "1" = false -> has_char c "2" = false ->
  has_char c "3" = false -> has_char c "4" = false -> has_char c "5" = false ->
  has_char c "6" = false -> has_char c "7" = false -> has_char c "8" = false ->
  has_char c "9" = false ->
  has_char c (NilEmpty.string_of_uint u) = false.
Proof.
  intros H0 H1 H2 H3 H4 H5 H6 H7 H8 H9.
  induction u; simpl; try reflexivity; simpl in *;
    match goal with H : _ || false = false |- _ => rewrite orb_false_r in H; rewrite H end;
    exact IHu.
Qed.

Lemma str_of_Z_no_dot z : has_char "." (str_of_Z z) = false.
Proof.
  unfold str_of_Z, NilEmpty.string_of_int.
  destruct (Z.to_int z); [|simpl]; apply has_char_uint; reflexivity.
Qed.

Lemma span_num_uint u :
  span_num (NilEmpty.string_of_uint u) = (NilEmpty.string_of_uint u, EmptyString).
Proof. induction u; simpl; try rewrite IHu; reflexivity. Qed.

Lemma drop_seps_uint u : drop_seps (NilEmpty.string_of_uint u) = NilEmpty.string_of_uint u.
Proof. induction u; simpl; try rewrite IHu; reflexivity. Qed.

Lemma seps_ok_uint c u :
  char_eqb c "_" = false -> seps_ok c (NilEmpty.string_of_uint u) = true.
Proof.
  revert c. induction u; intros c Hc; cbn [NilEmpty.string_of_uint seps_ok];
    [rewrite Hc; reflexivity| ..]; rewrite IHu by reflexivity; rewrite Hc; reflexivity.
Qed.

Lemma length_uint u : String.length (NilEmpty.string_of_uint u) = Decimal.nb_digits u.
Proof. induction u; simpl; try rewrite IHu; reflexivity. Qed.

Lemma int_of_str_uint u :
  u <> Decimal.Nil -> (Decimal.nb_digits u <= int_max_str_digits)%nat ->
  int_of_str (NilEmpty.string_of_uint u) = Some (Z.of_uint u) /\
  int_of_str (String "-" (NilEmpty.string_of_uint u)) = Some (- Z.of_uint u)%Z.
Proof.
  intros Hu Hn. pose proof (NilEmpty.usu u) as H.
  pose proof (span_num_uint u) as Hs. pose proof (drop_seps_uint u) as Hd.
  pose proof (seps_ok_uint "0" u eq_refl) as Hk.
  rewrite <- length_uint in Hn. apply Nat.ltb_ge in Hn.
  assert (Hc : exists c r, NilEmpty.string_of_uint u = String c r /\
                 py_space c = false /\ char_eqb c "-" = false /\ char_eqb c "+" = false /\
                 char_eqb c "_" = false).
  { destruct u; [congruence| ..]; simpl; eexists _, _;
      (split; [reflexivity|repeat split; reflexivity]). }
  destruct Hc as (c & r & Es & Hsp & Hm & Hp & Hus).
  unfold int_of_str. split.
  - rewrite Es at 1. cbn [lstrip_space]. rewrite Hsp. cbn [split_sign]. rewrite Hm, Hp.
    rewrite <- Es, Hs, Hd, Hk, Hn. rewrite Es. cbn [startswith_char]. rewrite Hus.
    rewrite <- Es, H, Es. reflexivity.
  - replace (split_sign (lstrip_space (String "-" (NilEmpty.string_of_uint u))))
      with (true, NilEmpty.string_of_uint u) by reflexivity. cbv iota beta.
    rewrite Hs, Hd, Hk, Hn. rewrite Es. cbn [startswith_char]. rewrite Hus.
    rewrite <- Es, H, Es. reflexivity.
Qed.

Lemma of_uint_acc_ge u acc :
  (Z.pos acc * 10 ^ Z.of_nat (Decimal.nb_digits u) <= Z.pos (Pos.of_uint_acc u acc))%Z.
Proof.
  revert acc. induction u; intro acc; cbn [Pos.of_uint_acc Decimal.nb_digits];
    [simpl; lia| ..];
    (eapply Z.le_trans; [|apply IHu]);
    rewrite Nat2Z.inj_succ, Z.pow_succ_r by lia;
    rewrite ?Pos2Z.inj_add, Pos2Z.inj_mul;
    pose proof (Z.pow_nonneg 10 (Z.of_nat (Decimal.nb_digits u)) ltac:(lia)); nia.
Qed.

Lemma to_uint_head p u : Pos.to_uint p <> Decimal.D0 u.
Proof.
  intro E. pose proof (DecimalPos.Unsigned.to_of (Pos.to_uint p)) as H.
  rewrite DecimalPos.Unsigned.of_to in H. change (N.to_uint (Npos p)) with (Pos.to_uint p) in H.
  rewrite E, DecimalFacts.unorm_D0 in H. destruct u;
    [exact (DecimalPos.Unsigned.to_uint_nonzero p E)| ..];
    match type of H with _ = Decimal.unorm ?x =>
        pose proof (DecimalFacts.nb_digits_unorm x ltac:(discriminate)) as Hl end;
      rewrite <- H in Hl; simpl in Hl; lia.
Qed.

Lemma nb_digits_pos p k :
  (Z.pos p < 10 ^ Z.of_nat k)%Z -> (Decimal.nb_digits (Pos.to_uint p) <= k)%nat.
Proof.
  intro Hp. pose proof (DecimalPos.Unsigned.of_to p) as Ho.
  pose proof (to_uint_head p) as Hh. pose proof (DecimalPos.Unsigned.to_uint_nonnil p) as Hnn.
  destruct (Pos.to_uint p) as [|u|u|u|u|u|u|u|u|u|u] eqn:E;
    [congruence|exfalso; exact (Hh u eq_refl)| ..];
    cbn [Pos.of_uint Decimal.nb_digits] in *; injection Ho as Ho;
    match type of Ho with Pos.of_uint_acc u ?a = _ =>
      pose proof (of_uint_acc_ge u a) as Hg; pose proof (Pos2Z.is_pos a) end;
    rewrite Ho in Hg;
    (destruct (Nat.le_gt_cases (S (Decimal.nb_digits u)) k) as [|Hk]; [assumption|exfalso]);
    assert (Hle : (10 ^ Z.of_nat k <= 10 ^ Z.of_nat (Decimal.nb_digits u))%Z)
      by (apply Z.pow_le_mono_r; lia);
    nia.
Qed.

Lemma int_of_str_of_Z z : (Z.abs z < 10 ^ 4300)%Z -> int_of_str (str_of_Z z) = Some z.
Proof.
  intro Hz4. pose proof (DecimalZ.of_to z) as Hz. unfold str_of_Z.
  destruct z as [|p|p]; cbn [Z.to_int] in *.
  - reflexivity.
  - assert (Hn := nb_digits_pos p int_max_str_digits Hz4).
    destruct (int_of_str_uint (Pos.to_uint p) (DecimalPos.Unsigned.to_uint_nonnil p) Hn) as [H _].
    cbn [NilEmpty.string_of_int]. rewrite H. exact (f_equal Some Hz).
  - assert (Hn := nb_digits_pos p int_max_str_digits Hz4).
    destruct (int_of_str_uint (Pos.to_uint p) (DecimalPos.Unsigned.to_uint_nonnil p) Hn) as [_ H].
    cbn [NilEmpty.string_of_int]. rewrite H. exact (f_equal Some Hz).
Qed.

(** A timestamp inside the 64-bit [time_t] has at most 19 digits. *)
Lemma time_t_digits z : (- 2 ^ 63 <= z < 2 ^ 63)%Z -> (Z.abs z < 10 ^ 4300)%Z.
Proof.
  intro H. assert (Hp : (10 ^ 19 <= 10 ^ 4300)%Z) by (apply Z.pow_le_mono_r; lia).
  set (B := (10 ^ 4300)%Z) in *. lia.
Qed.

(** ** The cache sweep *)

Lemma fromtimestamp_ok ts : (min_ts <= ts <= max_ts)%Z -> fromtimestamp ts = FtOk ts.
Proof.
  intro H. unfold fromtimestamp, min_ts, max_ts in *.
  replace ((ts <? - 2 ^ 63) || (2 ^ 63 <=? ts))%Z with false by
    (symmetry; apply orb_false_iff; split; [apply Z.ltb_ge|apply Z.leb_gt]; lia).
  replace ((ts <? -62135510400) || (253402300799 <? ts))%Z with false by
    (symmetry; apply orb_false_iff; split; apply Z.ltb_ge; lia).
  reflexivity.
Qed.

Lemma cache_name_split sym tf ykey ts :
  cache_name sym tf ykey ts = ((sym ++ "_" ++ tf ++ "-" ++ ykey) ++ "." ++ str_of_Z ts ++ ".parquet")%string.
Proof. unfold cache_name. rewrite !str_app_assoc. reflexivity. Qed.

(** [m] keeps the invariant [I] of the world. *)
Definition preserves {A} (I : world -> Prop) (m : M A) : Prop :=
  forall w r w', m w = (r, w') -> I w -> I w'.

Lemma pres_ret {A} I (a : A) : preserves I (ret a).
Proof. intros w r w' H. now inversion H. Qed.

Lemma pres_throw {A} I e : preserves I (@throw A e).
Proof. intros w r w' H. now inversion H. Qed.

Lemma pres_bind {A B} I (m : M A) (k : A -> M B) :
  preserves I m -> (forall a, preserves I (k a)) -> preserves I (bind m k).
Proof.
  intros Hm Hk w r w' H Hw. unfold bind in H.
  destruct (m w) as [[a|e] w1] eqn:E.
  - exact (Hk a _ _ _ H (Hm _ _ _ E Hw)).
  - inversion H; subst. exact (Hm _ _ _ E Hw).
Qed.

Lemma pres_wrap {A} I (m : M A) : preserves I m -> preserves I (wrap_runtime m).
Proof.
  intros Hm w r w' H. unfold wrap_runtime in H.
  destruct (m w) as [[a|e] w1] eqn:E; inversion H; subst; exact (Hm _ _ _ E).
Qed.

(** No file [n] in directory [d]. *)
Definition absent (d n : string) (w : world) : Prop :=
  forall f, ~ In (d, n, f) (w_files w).

Lemma absent_files d n w w' : w_files w' = w_files w -> absent d n w -> absent d n w'.
Proof. intros E H f. rewrite E. apply H. Qed.

Ltac absent_prim :=
  intros ? ? ? Hp; inversion Hp; subst; apply absent_files; reflexivity.

Lemma absent_os_exists d n p : preserves (absent d n) (os_exists p).
Proof. absent_prim. Qed.

Lemma absent_os_makedirs d n p : preserves (absent d n) (os_makedirs p).
Proof. absent_prim. Qed.

Lemma absent_os_listdir d n p : preserves (absent d n) (os_listdir p).
Proof. absent_prim. Qed.

Lemma absent_glob d n p pat : preserves (absent d n) (glob p pat).
Proof. absent_prim. Qed.

Lemma absent_get_now d n : preserves (absent d n) get_now.
Proof. absent_prim. Qed.

Lemma absent_read_parquet d n p q : preserves (absent d n) (read_parquet p q).
Proof.
  intros w r w' Hp. unfold read_parquet in Hp.
  destruct (find _ _) as [[[? ?] ?]|]; inversion Hp; subst; apply absent_files; reflexivity.
Qed.

Lemma absent_os_remove d n p q : preserves (absent d n) (os_remove p q).
Proof.
  intros w r w' Hp Ha f Hin. inversion Hp; subst. simpl in Hin.
  apply filter_In in Hin as [Hin _]. exact (Ha f Hin).
Qed.

Lemma absent_to_parquet d n p q g : q <> n -> preserves (absent d n) (to_parquet p q g).
Proof.
  intros Hq w r w' Hp Ha f Hin. inversion Hp; subst. simpl in Hin.
  apply in_app_or in Hin as [Hin|[Hin|[]]].
  - apply filter_In in Hin as [Hin _]. exact (Ha f Hin).
  - inversion Hin; subst. congruence.
Qed.

(** After [os_remove d n], no file [n] is left in [d]. *)
Lemma os_remove_absent d n w r w' : os_remove d n w = (r, w') -> absent d n w'.
Proof.
  intros Hp f Hin. inversion Hp; subst. simpl in Hin.
  apply filter_In in Hin as [_ Hb]. rewrite !String.eqb_refl in Hb. discriminate.
Qed.

Lemma absent_read_all d n p names : preserves (absent d n) (read_all p names).
Proof.
  induction names as [|x xs IH]; simpl; [apply pres_ret|].
  apply pres_bind; [apply absent_read_parquet|]. intro.
  apply pres_bind; [exact IH|]. intro. apply pres_ret.
Qed.

Lemma absent_sweep_one d n folder thr x : preserves (absent d n) (sweep_one folder thr x).
Proof.
  unfold sweep_one.
  destruct (negb _); [apply pres_ret|].
  destruct (3 <=? _)%nat; [|apply pres_ret].
  destruct (int_of_str _) as [t|]; [|apply pres_ret].
  destruct (fromtimestamp t) as [ft| |]; [|apply pres_ret|apply pres_throw].
  destruct (ft <? thr)%Z; [apply absent_os_remove|apply pres_ret].
Qed.

Lemma absent_for_each_sweep d n folder thr names :
  preserves (absent d n) (for_each names (sweep_one folder thr)).
Proof.
  induction names as [|x xs IH]; simpl; [apply pres_ret|].
  apply pres_bind; [apply absent_sweep_one|]. intro. exact IH.
Qed.

Lemma absent_lookup_cache d n cd tf ykey syms : preserves (absent d n) (lookup_cache cd tf ykey syms).
Proof.
  induction syms as [|s rest IH]; simpl; [apply pres_ret|].
  apply pres_bind; [apply absent_glob|]. intro files.
  destruct (sorted_desc files); [apply pres_ret|].
  apply pres_bind; [apply absent_read_parquet|]. intro.
  apply pres_bind; [exact IH|]. intro. apply pres_ret.
Qed.

(** The rebuild writes only the entries [cache_name sym tf ykey ts]. *)
Lemma absent_rebuild d n dir_path cd tf years ykey ts syms :
  (forall sym, cache_name sym tf ykey ts <> n) ->
  preserves (absent d n) (rebuild dir_path cd tf years ykey ts syms).
Proof.
  intro Hn. unfold rebuild. apply pres_wrap. apply pres_bind.
  - induction syms as [|s rest IH]; simpl; [apply pres_ret|].
    apply pres_bind.
    + unfold load_symbol.
      apply pres_bind; [apply absent_os_exists|]. intro e.
      destruct (negb e); [apply pres_ret|].
      apply pres_bind; [apply absent_glob|]. intro mf.
      destruct mf; [apply pres_ret|].
      destruct (match years with None => _ | Some _ => _ end); [apply pres_ret|].
      apply pres_bind; [apply absent_read_all|]. intro dfs.
      destruct dfs; [apply pres_ret|].
      apply pres_bind; [apply absent_to_parquet; apply Hn|]. intro. apply pres_ret.
    + intro. apply pres_bind; [exact IH|]. intro. apply pres_ret.
  - intro dfs. destruct dfs; [apply pres_throw|apply pres_ret].
Qed.

(** Operations that are not part of a cache lookup. *)
Definition no_lookup (op : fsop) : Prop :=
  match op with
  | OpGlob _ _ | OpRead _ _ => False
  | _ => True
  end.

Lemma sweep_one_emits folder thr x :
  emits (fun op => exists n, op = OpRemove folder n) (sweep_one folder thr x).
Proof.
  unfold sweep_one.
  destruct (negb _); [apply emits_ret|].
  destruct (3 <=? _)%nat; [|apply emits_ret].
  destruct (int_of_str _) as [t|]; [|apply emits_ret].
  destruct (fromtimestamp t) as [ft| |]; [|apply emits_ret|apply emits_throw].
  destruct (ft <? thr)%Z; [apply emits_os_remove; eauto|apply emits_ret].
Qed.

Lemma for_each_sweep_emits folder thr names :
  emits (fun op => exists n, op = OpRemove folder n) (for_each names (sweep_one folder thr)).
Proof.
  induction names as [|x xs IH]; simpl; [apply emits_ret|].
  apply emits_bind; [apply sweep_one_emits|]. intro. exact IH.
Qed.



Lemma emits_weaken {A} (P Q : fsop -> Prop) (m : M A) :
  (forall op, P op -> Q op) -> emits P m -> emits Q m.
Proof.
  intros PQ Hm w r w' H. destruct (Hm _ _ _ H) as (new & T & F).
  exists new. split; [exact T|]. eapply Forall_impl; eauto.
Qed.

Lemma remove_old_cache_emits folder days : emits no_lookup (remove_old_cache folder days).
Proof.
  unfold remove_old_cache.
  apply emits_bind; [apply emits_os_exists; exact I|]. intro e.
  destruct (negb e); [apply emits_ret|].
  apply emits_bind; [apply emits_get_now|]. intro now.
  apply emits_bind; [apply emits_os_listdir; exact I|]. intro names.
  eapply emits_weaken; [|apply for_each_sweep_emits].
  intros op (n & ->). exact I.
Qed.

(** The clock is read, never set. *)
Definition clock_is (t : Z) (w : world) : Prop := w_now w = t.

Ltac clock_prim := intros ? ? ? Hp Hc; inversion Hp; subst; exact Hc.

Lemma remove_old_cache_clock t folder days : preserves (clock_is t) (remove_old_cache folder days).
Proof.
  unfold remove_old_cache.
  apply pres_bind; [clock_prim|]. intro e.
  destruct (negb e); [apply pres_ret|].
  apply pres_bind; [clock_prim|]. intro now.
  apply pres_bind; [clock_prim|]. intro names.
  induction names as [|x xs IH]; simpl; [apply pres_ret|].
  apply pres_bind; [|intro; exact IH].
  unfold sweep_one.
  destruct (negb _); [apply pres_ret|].
  destruct (3 <=? _)%nat; [|apply pres_ret].
  destruct (int_of_str _) as [u|]; [|apply pres_ret].
  destruct (fromtimestamp u) as [ft| |]; [|apply pres_ret|apply pres_throw].
  destruct (ft <? _)%Z; [clock_prim|apply pres_ret].
Qed.

Lemma existsb_in p l : In p l -> existsb (String.eqb p) l = true.
Proof. intro H. apply existsb_exists. exists p. split; [exact H|apply String.eqb_refl]. Qed.

(** What a [load_kline] call does after the sweep: read the clock, look
    the symbols up in the cache, rebuild on a miss. *)
Definition after_sweep (dir cd tf : string) (years : option (list Z)) (syms : list string)
  : M frame :=
  ts <- get_now ;;
  cached <- lookup_cache cd tf (years_key years) syms ;;
  match cached with
  | Some cached_dfs => ret (sort_values (combine_dfs cached_dfs))
  | None => rebuild dir cd tf years (years_key years) ts syms
  end.


(** ** C8 *)

(** A cache directory holding a stale entry of BTCUSDT, written at
    [1700000000], more than a day before the clock [1760000000]. *)
Definition stale_name : string := cache_name "BTCUSDT" "1m" "all" 1700000000.


(** The same directory, with an entry stamped [2^63] (beyond the 64-bit
    [time_t]) listed before the stale one. *)
Definition far_name : string :=
  ("BTCUSDT_1m-all" ++ "." ++ str_of_Z (2 ^ 63)%Z ++ ".parquet")%string.

Definition world_far_stale : world :=
  mkWorld [spot_dir; spot_cache; btc_dir]
    [(spot_cache, far_name, btc_2025);
     (spot_cache, stale_name, btc_2024);
     (btc_dir, "BTCUSDT_kline_1m_2025.parquet", btc_2025)]
    1760000000 [].

(** C8, failing input: a valid call whose cache directory lists the entry
    stamped [2^63] first.  [datetime.fromtimestamp] raises [OverflowError],
    which the sweep's [except (ValueError, OSError)] does not catch: the
    sweep stops, the call raises, and the stale entry is still there. *)
Lemma load_kline_overflow_keeps_stale :
  fst (load_kline "binance" "spot" "um" "1m" None (Some ["BTCUSDT"]) world_far_stale)
  = Err (OverflowError "timestamp out of range for platform time_t") /\
  In (spot_cache, stale_name, btc_2024)
     (w_files (snd (load_kline "binance" "spot" "um" "1m" None (Some ["BTCUSDT"])
                               world_far_stale))).
Proof. vm_compute. split; [reflexivity|right; left; reflexivity]. Qed.

(** ** Two calls: worlds that agree on the source directories *)

(** [w1] and [w2] have the same directories and files at the places [D]. *)
Definition agree_on (D : string -> Prop) (w1 w2 : world) : Prop :=
  (forall d, D d -> existsb (String.eqb d) (w_dirs w1) = existsb (String.eqb d) (w_dirs w2)) /\
  (forall d, D d -> files_in d w1 = files_in d w2).

Lemma agree_refl D w : agree_on D w w.
Proof. split; reflexivity. Qed.

Lemma agree_sym D w1 w2 : agree_on D w1 w2 -> agree_on D w2 w1.
Proof. intros [H1 H2]. split; intros; symmetry; auto. Qed.

Lemma agree_trans D w1 w2 w3 : agree_on D w1 w2 -> agree_on D w2 w3 -> agree_on D w1 w3.
Proof.
  intros [A1 B1] [A2 B2].
  split; intros d Hd; [rewrite (A1 d Hd); exact (A2 d Hd)|rewrite (B1 d Hd); exact (B2 d Hd)].
Qed.

(** [m1] and [m2] give the same result on worlds that agree on [D], and
    leave worlds that agree on [D]. *)
Definition rel {A} (D : string -> Prop) (m1 m2 : M A) : Prop :=
  forall w1 w2, agree_on D w1 w2 ->
  fst (m1 w1) = fst (m2 w2) /\ agree_on D (snd (m1 w1)) (snd (m2 w2)).

Lemma rel_ret {A} D (a : A) : rel D (ret a) (ret a).
Proof. intros w1 w2 H. split; [reflexivity|exact H]. Qed.

Lemma rel_throw {A} D e : rel D (@throw A e) (@throw A e).
Proof. intros w1 w2 H. split; [reflexivity|exact H]. Qed.

Lemma rel_bind {A B} D (m1 m2 : M A) (k1 k2 : A -> M B) :
  rel D m1 m2 -> (forall a, rel D (k1 a) (k2 a)) -> rel D (bind m1 k1) (bind m2 k2).
Proof.
  intros Hm Hk w1 w2 H. destruct (Hm w1 w2 H) as [E Ag]. unfold bind.
  destruct (m1 w1) as [r1 w1'], (m2 w2) as [r2 w2']. simpl in E, Ag. subst r2.
  destruct r1 as [a|e]; [exact (Hk a _ _ Ag)|]. split; [reflexivity|exact Ag].
Qed.

Lemma rel_wrap {A} D (m1 m2 : M A) : rel D m1 m2 -> rel D (wrap_runtime m1) (wrap_runtime m2).
Proof.
  intros Hm w1 w2 H. destruct (Hm w1 w2 H) as [E Ag]. unfold wrap_runtime.
  destruct (m1 w1) as [r1 w1'], (m2 w2) as [r2 w2']. simpl in E, Ag. subst r2.
  destruct r1; split; auto.
Qed.

Lemma rel_os_exists D p : D p -> rel D (os_exists p) (os_exists p).
Proof. intros Hp w1 w2 H. split; [simpl; f_equal; apply (proj1 H); exact Hp|exact H]. Qed.

Lemma rel_glob D d pat : D d -> rel D (glob d pat) (glob d pat).
Proof. intros Hd w1 w2 H. split; [simpl; rewrite (proj2 H d Hd); reflexivity|exact H]. Qed.

Lemma rel_read_parquet D d n : D d -> rel D (read_parquet d n) (read_parquet d n).
Proof.
  intros Hd w1 w2 H. rewrite !read_parquet_eq. unfold lookup_file.
  rewrite (proj2 H d Hd). split; [reflexivity|exact H].
Qed.

Lemma rel_read_all D d names : D d -> rel D (read_all d names) (read_all d names).
Proof.
  intro Hd. induction names as [|n ns IH]; simpl; [apply rel_ret|].
  apply rel_bind; [apply rel_read_parquet; exact Hd|]. intro.
  apply rel_bind; [exact IH|]. intro. apply rel_ret.
Qed.

Lemma files_in_replace e d n (f : frame) (l : list (string * string * frame)) :
  d <> e ->
  map (fun '(_, n, f) => (n, f))
      (filter (fun '(d', _, _) => String.eqb d' e)
              (filter (fun '(d', n', _) => negb (String.eqb d' d && String.eqb n' n)) l
               ++ [(d, n, f)])%list)
  = map (fun '(_, n, f) => (n, f)) (filter (fun '(d', _, _) => String.eqb d' e) l).
Proof.
  intro Hde. rewrite filter_app. simpl.
  replace (String.eqb d e) with false by (symmetry; apply String.eqb_neq; exact Hde).
  rewrite app_nil_r. f_equal.
  induction l as [|[[d' n'] f'] l IH]; simpl; [reflexivity|].
  destruct (String.eqb_spec d' e) as [->|Hne].
  - replace (String.eqb e d) with false by (symmetry; apply String.eqb_neq; congruence).
    simpl. rewrite String.eqb_refl. f_equal. exact IH.
  - destruct (negb _); simpl; [|exact IH].
    replace (String.eqb d' e) with false by (symmetry; apply String.eqb_neq; exact Hne).
    exact IH.
Qed.

Lemma files_in_remove e d n (l : list (string * string * frame)) :
  d <> e ->
  map (fun '(_, n, f) => (n, f))
      (filter (fun '(d', _, _) => String.eqb d' e)
              (filter (fun '(d', n', _) => negb (String.eqb d' d && String.eqb n' n)) l))
  = map (fun '(_, n, f) => (n, f)) (filter (fun '(d', _, _) => String.eqb d' e) l).
Proof.
  intro Hde. pose proof (files_in_replace e d n (mkFrame [] []) l Hde) as H.
  rewrite filter_app in H. simpl in H.
  replace (String.eqb d e) with false in H by (symmetry; apply String.eqb_neq; exact Hde).
  rewrite app_nil_r in H. exact H.
Qed.

Lemma rel_to_parquet D d n1 n2 f : ~ D d -> rel D (to_parquet d n1 f) (to_parquet d n2 f).
Proof.
  intros Hd w1 w2 [A B]. split; [reflexivity|]. split; [exact A|].
  intros e He. unfold files_in. simpl.
  rewrite !files_in_replace by (intros ->; contradiction).
  exact (B e He).
Qed.

Lemma rel_load_symbol D dir_path cd tf years ykey ts1 ts2 sym :
  D (path_join dir_path sym) -> ~ D cd ->
  rel D (load_symbol dir_path cd tf years ykey ts1 sym)
        (load_symbol dir_path cd tf years ykey ts2 sym).
Proof.
  intros Hs Hc. unfold load_symbol.
  apply rel_bind; [apply rel_os_exists; exact Hs|]. intro e.
  destruct (negb e); [apply rel_ret|].
  apply rel_bind; [apply rel_glob; exact Hs|]. intro mf.
  destruct mf; [apply rel_ret|].
  destruct (match years with None => _ | Some _ => _ end); [apply rel_ret|].
  apply rel_bind; [apply rel_read_all; exact Hs|]. intro dfs.
  destruct dfs; [apply rel_ret|].
  apply rel_bind; [apply rel_to_parquet; exact Hc|]. intro. apply rel_ret.
Qed.

Lemma rel_load_symbols D dir_path cd tf years ykey ts1 ts2 syms :
  (forall s, In s syms -> D (path_join dir_path s)) -> ~ D cd ->
  rel D (load_symbols dir_path cd tf years ykey ts1 syms)
        (load_symbols dir_path cd tf years ykey ts2 syms).
Proof.
  intros Hs Hc. induction syms as [|s rest IH]; simpl; [apply rel_ret|].
  apply rel_bind; [apply rel_load_symbol; [apply Hs; left; reflexivity|exact Hc]|]. intro.
  apply rel_bind; [apply IH; intros; apply Hs; right; assumption|]. intro. apply rel_ret.
Qed.

(** The rebuild does not depend on the cache directory nor on the write
    timestamp: its result is a function of the symbol directories. *)
Lemma rel_rebuild D dir_path cd tf years ykey ts1 ts2 syms :
  (forall s, In s syms -> D (path_join dir_path s)) -> ~ D cd ->
  rel D (rebuild dir_path cd tf years ykey ts1 syms)
        (rebuild dir_path cd tf years ykey ts2 syms).
Proof.
  intros Hs Hc. unfold rebuild. apply rel_wrap. apply rel_bind.
  - apply rel_load_symbols; assumption.
  - intro dfs. destruct dfs; [apply rel_throw|apply rel_ret].
Qed.

(** [m] leaves the places [D] as they were. *)
Definition keeps {A} (D : string -> Prop) (m : M A) : Prop :=
  forall w r w', m w = (r, w') -> agree_on D w w'.

Lemma keeps_ret {A} D (a : A) : keeps D (ret a).
Proof. intros w r w' H. inversion H; subst. apply agree_refl. Qed.

Lemma keeps_throw {A} D e : keeps D (@throw A e).
Proof. intros w r w' H. inversion H; subst. apply agree_refl. Qed.

Lemma keeps_bind {A B} D (m : M A) (k : A -> M B) :
  keeps D m -> (forall a, keeps D (k a)) -> keeps D (bind m k).
Proof.
  intros Hm Hk w r w' H. unfold bind in H.
  destruct (m w) as [[a|e] w1] eqn:E.
  - exact (agree_trans _ _ _ _ (Hm _ _ _ E) (Hk a _ _ _ H)).
  - inversion H; subst. exact (Hm _ _ _ E).
Qed.

Lemma keeps_wrap {A} D (m : M A) : keeps D m -> keeps D (wrap_runtime m).
Proof.
  intros Hm w r w' H. unfold wrap_runtime in H.
  destruct (m w) as [[a|e] w1] eqn:E; inversion H; subst; exact (Hm _ _ _ E).
Qed.

Ltac keeps_prim := intros ? ? ? Hp; inversion Hp; subst; split; reflexivity.

Lemma keeps_os_exists D p : keeps D (os_exists p).
Proof. keeps_prim. Qed.

Lemma keeps_glob D d pat : keeps D (glob d pat).
Proof. keeps_prim. Qed.

Lemma keeps_os_listdir D d : keeps D (os_listdir d).
Proof. keeps_prim. Qed.

Lemma keeps_get_now D : keeps D get_now.
Proof. keeps_prim. Qed.

Lemma keeps_read_parquet D d n : keeps D (read_parquet d n).
Proof. intros w r w' Hp. rewrite read_parquet_eq in Hp. inversion Hp; subst. split; reflexivity. Qed.

Lemma keeps_read_all D d names : keeps D (read_all d names).
Proof.
  induction names as [|n ns IH]; simpl; [apply keeps_ret|].
  apply keeps_bind; [apply keeps_read_parquet|]. intro.
  apply keeps_bind; [exact IH|]. intro. apply keeps_ret.
Qed.

Lemma keeps_os_makedirs D p : ~ D p -> keeps D (os_makedirs p).
Proof.
  intros Hp w r w' H. inversion H; subst. split; [|reflexivity].
  intros d Hd. simpl. rewrite existsb_app. simpl.
  replace (String.eqb d p) with false by (symmetry; apply String.eqb_neq; intros ->; contradiction).
  rewrite orb_false_r. reflexivity.
Qed.

Lemma keeps_to_parquet D d n f : ~ D d -> keeps D (to_parquet d n f).
Proof.
  intros Hd w r w' H. inversion H; subst. split; [reflexivity|].
  intros e He. unfold files_in. simpl.
  rewrite files_in_replace by (intros ->; contradiction). reflexivity.
Qed.

Lemma keeps_os_remove D d n : ~ D d -> keeps D (os_remove d n).
Proof.
  intros Hd w r w' H. inversion H; subst. split; [reflexivity|].
  intros e He. unfold files_in. simpl.
  rewrite files_in_remove by (intros ->; contradiction). reflexivity.
Qed.

Lemma bind_ok_eq {A B} (m : M A) (k : A -> M B) w a w1 :
  m w = (Ok a, w1) -> bind m k w = k a w1.
Proof. intro E. unfold bind. rewrite E. reflexivity. Qed.

(** Run the first step of a monadic program whose first step is a
    primitive that returns normally. *)
Ltac bstep :=
  match goal with
  | |- context [bind ?m ?k ?w] => rewrite (bind_ok_eq m k w _ _ eq_refl); cbv beta
  end.

Lemma in_files_in_find d n w :
  In n (map fst (files_in d w)) -> exists f, lookup_file d n w = Some f.
Proof.
  unfold lookup_file. intro H.
  destruct (find (fun p => String.eqb (fst p) n) (files_in d w)) as [[n' f]|] eqn:E.
  - exists f. reflexivity.
  - apply in_map_iff in H as ([n'' f''] & <- & Hin).
    pose proof (find_none _ _ E _ Hin) as F. simpl in F. rewrite String.eqb_refl in F.
    discriminate.
Qed.

Lemma read_all_run d names w :
  (forall n, In n names -> In n (map fst (files_in d w))) ->
  exists dfs w', read_all d names w = (Ok dfs, w') /\
    w_dirs w' = w_dirs w /\ w_files w' = w_files w.
Proof.
  revert w. induction names as [|n ns IH]; intros w Hn; simpl.
  - eexists _, _. split; [reflexivity|]. auto.
  - destruct (in_files_in_find d n w (Hn n (or_introl eq_refl))) as [f Ef].
    rewrite (bind_ok_eq _ _ w f (record (OpRead d n) w))
      by (rewrite read_parquet_eq, Ef; reflexivity).
    destruct (IH (record (OpRead d n) w) (fun x Hx => Hn x (or_intror Hx)))
      as (dfs & w' & E & D1 & F1).
    rewrite (bind_ok_eq _ _ _ _ _ E). eexists _, _. split; [reflexivity|]. auto.
Qed.

(** A symbol of the rebuild is loaded without error: either skipped
    ([None], nothing written) or loaded and written to its cache entry. *)
Lemma load_symbol_run dir_path cd tf years ykey ts sym w :
  exists o w', load_symbol dir_path cd tf years ykey ts sym w = (Ok o, w') /\
    w_dirs w' = w_dirs w /\
    match o with
    | None => w_files w' = w_files w
    | Some df =>
        w_files w' =
        (filter (fun '(d', n', _) => negb (String.eqb d' cd && String.eqb n' (cache_name sym tf ykey ts)))
                (w_files w) ++ [(cd, cache_name sym tf ykey ts, df)])%list
    end.
Proof.
  unfold load_symbol. bstep.
  destruct (negb _).
  { eexists _, _. split; [reflexivity|]. auto. }
  bstep.
  set (mf := filter _ _).
  assert (Hmf : forall n, In n mf -> In n (map fst (files_in (path_join dir_path sym) w))).
  { intros n Hn. apply filter_In in Hn. apply Hn. }
  clearbody mf.
  destruct mf as [|m0 ms].
  { eexists _, _. split; [reflexivity|]. auto. }
  set (ff := match years with None => _ | Some _ => _ end).
  assert (Hff : forall n, In n ff -> In n (m0 :: ms)).
  { intros n Hn. subst ff. destruct years; [apply filter_In in Hn; apply Hn|exact Hn]. }
  clearbody ff. destruct ff as [|f0 fs].
  { eexists _, _. split; [reflexivity|]. auto. }
  destruct (read_all_run (path_join dir_path sym) (sorted_asc (f0 :: fs))
              (record (OpGlob (path_join dir_path sym) (sym ++ "_kline_" ++ tf ++ "_*.parquet"))
                      (record (OpExists (path_join dir_path sym)) w)))
    as (dfs & w1 & E & D1 & F1).
  { intros n Hn. apply in_sort_by in Hn. exact (Hmf n (Hff n Hn)). }
  rewrite (bind_ok_eq _ _ _ _ _ E).
  destruct dfs as [|df dfs].
  { eexists _, _. split; [reflexivity|]. simpl in *. auto. }
  eexists _, _. split; [reflexivity|]. simpl in *.
  rewrite D1, F1. auto.
Qed.

(** ** Plain symbol names *)

Definition is_alnum (a : ascii) : bool :=
  let n := nat_of_ascii a in
  (Nat.leb 48 n && Nat.leb n 57) || (Nat.leb 65 n && Nat.leb n 90)
  || (Nat.leb 97 n && Nat.leb n 122).

Fixpoint all_alnum (s : string) : bool :=
  match s with
  | EmptyString => true
  | String a s' => is_alnum a && all_alnum s'
  end.

(** A symbol such as [BTCUSDT]: non-empty, letters and digits only. *)
Definition plain_symbol (s : string) : bool := negb (String.eqb s EmptyString) && all_alnum s.

Lemma all_alnum_no_char c s : is_alnum c = false -> all_alnum s = true -> has_char c s = false.
Proof.
  intro Hc. induction s as [|a s IH]; simpl; [reflexivity|].
  intro H. apply andb_true_iff in H as [Ha Hs]. rewrite IH by exact Hs.
  destruct (char_eqb a c) eqn:E; [|reflexivity].
  unfold char_eqb in E. apply Ascii.eqb_eq in E. subst. congruence.
Qed.

Lemma plain_no_char c s : is_alnum c = false -> plain_symbol s = true -> has_char c s = false.
Proof. intros Hc H. apply andb_true_iff in H as [_ H]. apply all_alnum_no_char; assumption. Qed.

Lemma plain_head s : plain_symbol s = true -> exists a s', s = String a s' /\ is_alnum a = true.
Proof.
  destruct s as [|a s']; [discriminate|]. intro H. apply andb_true_iff in H as [_ H].
  simpl in H. apply andb_true_iff in H as [Ha _]. eauto.
Qed.

Lemma plain_not_startswith c s :
  is_alnum c = false -> plain_symbol s = true -> startswith (String c EmptyString) s = false.
Proof.
  intros Hc H. destruct (plain_head s H) as (a & s' & -> & Ha). simpl.
  destruct (char_eqb c a) eqn:E; [|reflexivity].
  unfold char_eqb in E. apply Ascii.eqb_eq in E. subst. congruence.
Qed.

Lemma str_app_inv_l (a b c : string) : (a ++ b)%string = (a ++ c)%string -> b = c.
Proof. induction a as [|x a IH]; simpl; [auto|]. intro H. injection H. exact IH. Qed.

Lemma str_length_app (a b : string) : String.length (a ++ b) = (String.length a + String.length b)%nat.
Proof. induction a as [|x a IH]; simpl; [reflexivity|]. now rewrite IH. Qed.

(** The symbol directory of a plain symbol is not the cache directory. *)
Lemma symbol_dir_not_cache dir s :
  plain_symbol s = true -> path_join dir s <> cache_dir_of dir.
Proof.
  intros Hs E. unfold cache_dir_of, path_join in E.
  rewrite (plain_not_startswith "/" s) in E by (reflexivity || exact Hs). simpl in E.
  assert (s = "_cache") as ->.
  { destruct ((dir =? EmptyString) || endswith "/" dir);
      [|injection (str_app_inv_l _ _ _ E)]; eauto using str_app_inv_l. }
  discriminate.
Qed.

Lemma cache_dir_not_dir dir : cache_dir_of dir <> dir.
Proof.
  intro E. apply (f_equal String.length) in E. unfold cache_dir_of, path_join in E. simpl in E.
  destruct ((dir =? EmptyString) || endswith "/" dir); rewrite str_length_app in E;
    simpl in E; lia.
Qed.

(** [fnmatch] on a literal first character. *)
Lemma gmatch_lit c p s :
  c <> "*"%char ->
  gmatch (String c p) s = match s with
                          | String d s' => char_eqb c d && gmatch p s'
                          | EmptyString => false
                          end.
Proof.
  intro Hc. destruct c as [[] [] [] [] [] [] [] []]; try reflexivity.
  exfalso. apply Hc. reflexivity.
Qed.

Lemma gmatch_prefix p q r : has_char "*" p = false -> gmatch (p ++ q) (p ++ r) = gmatch q r.
Proof.
  induction p as [|c p IH]; intro H; [reflexivity|].
  change (gmatch (String c (p ++ q)) (String c (p ++ r)) = gmatch q r).
  simpl in H. apply orb_false_iff in H as [Hc Hp].
  rewrite gmatch_lit.
  - unfold char_eqb. rewrite Ascii.eqb_refl. simpl. exact (IH Hp).
  - intros ->. discriminate.
Qed.

Lemma gmatch_star q x y : gmatch q y = true -> gmatch (String "*" q) (x ++ y) = true.
Proof.
  intro H. induction x as [|a x IH]; simpl.
  - destruct y; rewrite H; reflexivity.
  - simpl in IH. rewrite IH. apply orb_true_r.
Qed.

(** A pattern [s_...] matches a name [s'_...] only for [s = s'], when
    neither symbol has an underscore or a star. *)
Lemma gmatch_symbol s s' R R' :
  has_char "_" s = false -> has_char "*" s = false -> has_char "_" s' = false ->
  gmatch (s ++ String "_" R) (s' ++ String "_" R') = true -> s = s'.
Proof.
  revert s'. induction s as [|c s IH]; intros s' H1 H2 H3 H; cbn [append] in H.
  - rewrite gmatch_lit in H by discriminate.
    destruct s' as [|d s'']; [reflexivity|]. cbn [append] in H. simpl in H3.
    apply orb_false_iff in H3 as [Hd _].
    apply andb_true_iff in H as [E _]. unfold char_eqb in E, Hd.
    apply Ascii.eqb_eq in E. subst. rewrite Ascii.eqb_refl in Hd. discriminate.
  - simpl in H1, H2. apply orb_false_iff in H1 as [Hc1 H1]. apply orb_false_iff in H2 as [Hc2 H2].
    rewrite gmatch_lit in H by (intros ->; discriminate).
    destruct s' as [|d s'']; cbn [append] in H.
    + apply andb_true_iff in H as [E _]. unfold char_eqb in E, Hc1.
      apply Ascii.eqb_eq in E. subst. discriminate.
    + apply andb_true_iff in H as [E H]. unfold char_eqb in E. apply Ascii.eqb_eq in E. subst d.
      simpl in H3. apply orb_false_iff in H3 as [_ H3].
      f_equal. exact (IH s'' H1 H2 H3 H).
Qed.

Lemma has_char_uint_star u : has_char "*" (NilEmpty.string_of_uint u) = false.
Proof. apply has_char_uint; reflexivity. Qed.

Lemma str_of_Z_no_star z : has_char "*" (str_of_Z z) = false.
Proof.
  unfold str_of_Z, NilEmpty.string_of_int.
  destruct (Z.to_int z); [|simpl]; apply has_char_uint; reflexivity.
Qed.

Lemma has_char_join c sep xs :
  has_char c sep = false -> Forall (fun x => has_char c x = false) xs ->
  has_char c (join sep xs) = false.
Proof.
  intros Hs Hx. induction Hx as [|x xs Hx Hxs IH]; [reflexivity|].
  destruct xs as [|y ys]; [exact Hx|].
  change (join sep (x :: y :: ys)) with (x ++ sep ++ join sep (y :: ys))%string.
  rewrite !has_char_app, Hx, Hs, IH. reflexivity.
Qed.

Lemma years_key_no_star years : has_char "*" (years_key years) = false.
Proof.
  destruct years as [ys|]; [|reflexivity]. simpl. apply has_char_join; [reflexivity|].
  apply Forall_forall. intros x Hx. apply in_map_iff in Hx as (z & <- & _).
  apply str_of_Z_no_star.
Qed.

Lemma valid_tf_no_star tf : existsb (String.eqb tf) valid_timeframes = true -> has_char "*" tf = false.
Proof.
  intro H. apply existsb_exists in H as (x & Hx & E). apply String.eqb_eq in E. subst.
  simpl in Hx. repeat (destruct Hx as [<-|Hx]; [reflexivity|]). destruct Hx.
Qed.

(** The lookup pattern of a plain symbol matches exactly its own entries. *)
Lemma gmatch_cache_name s s' tf ykey t :
  plain_symbol s = true -> plain_symbol s' = true ->
  has_char "*" tf = false -> has_char "*" ykey = false ->
  gmatch (cache_pattern s tf ykey) (cache_name s' tf ykey t) = String.eqb s s'.
Proof.
  intros Hs Hs' Htf Hyk. destruct (String.eqb_spec s s') as [<-|Hne].
  - unfold cache_pattern, cache_name.
    replace (s ++ "_" ++ tf ++ "-" ++ ykey ++ ".*.parquet")%string
      with ((s ++ "_" ++ tf ++ "-" ++ ykey ++ ".") ++ "*.parquet")%string
      by (rewrite !str_app_assoc; reflexivity).
    replace (s ++ "_" ++ tf ++ "-" ++ ykey ++ "." ++ str_of_Z t ++ ".parquet")%string
      with ((s ++ "_" ++ tf ++ "-" ++ ykey ++ ".") ++ (str_of_Z t ++ ".parquet"))%string
      by (rewrite !str_app_assoc; reflexivity).
    rewrite gmatch_prefix.
    + apply gmatch_star. reflexivity.
    + rewrite !has_char_app, (plain_no_char "*" s), Htf, Hyk by (reflexivity || exact Hs).
      reflexivity.
  - destruct (gmatch _ _) eqn:E; [|reflexivity]. exfalso. apply Hne.
    unfold cache_pattern, cache_name in E.
    apply gmatch_symbol in E; [exact E| | |];
      apply plain_no_char; (reflexivity || assumption).
Qed.

Lemma cache_name_sym_inj s s' tf ykey t :
  plain_symbol s = true -> plain_symbol s' = true ->
  cache_name s tf ykey t = cache_name s' tf ykey t -> s = s'.
Proof.
  intros Hs Hs' E. unfold cache_name in E. cbn [append] in E. apply (f_equal (break_at "_")) in E.
  rewrite !break_at_app in E by (apply plain_no_char; reflexivity || assumption).
  congruence.
Qed.

(** ** The cache directory between two calls *)

(** [filter_map Some]: the tables of the loaded symbols. *)
Fixpoint somes (l : list (option frame)) : list frame :=
  match l with
  | [] => []
  | Some f :: l' => f :: somes l'
  | None :: l' => somes l'
  end.

(** [Some] of all the tables when every symbol has one. *)
Fixpoint all_some (l : list (option frame)) : option (list frame) :=
  match l with
  | [] => Some []
  | Some f :: l' => option_map (cons f) (all_some l')
  | None :: _ => None
  end.

Lemma all_some_somes l dfs : all_some l = Some dfs -> somes l = dfs.
Proof.
  revert dfs. induction l as [|[f|] l IH]; intros dfs H; simpl in H.
  - now inversion H.
  - destruct (all_some l) as [d|] eqn:E; inversion H; subst. simpl. f_equal. now apply IH.
  - discriminate.
Qed.

Lemma for_each_ext {A} (xs : list A) (f g : A -> M unit) :
  (forall x, In x xs -> forall w, f x w = g x w) -> forall w, for_each xs f w = for_each xs g w.
Proof.
  induction xs as [|x xs IH]; intros H w; simpl; [reflexivity|].
  unfold bind. rewrite (H x (or_introl eq_refl) w).
  destruct (g x w) as [[u|e] w1]; [|reflexivity].
  apply IH. intros y Hy. apply H. right. exact Hy.
Qed.

Lemma files_in_write d n f (l : list (string * string * frame)) :
  map (fun '(_, n, f) => (n, f))
      (filter (fun '(d', _, _) => String.eqb d' d)
              (filter (fun '(d', n', _) => negb (String.eqb d' d && String.eqb n' n)) l
               ++ [(d, n, f)])%list)
  = (filter (fun p => negb (String.eqb (fst p) n))
            (map (fun '(_, n, f) => (n, f)) (filter (fun '(d', _, _) => String.eqb d' d) l))
     ++ [(n, f)])%list.
Proof.
  rewrite filter_app, map_app. simpl. rewrite String.eqb_refl. f_equal.
  induction l as [|[[d' n'] f'] l IH]; simpl; [reflexivity|].
  destruct (String.eqb_spec d' d) as [->|Hne]; simpl.
  - destruct (String.eqb n' n); simpl; rewrite ?String.eqb_refl; simpl; [exact IH|].
    f_equal. exact IH.
  - rewrite (proj2 (String.eqb_neq d' d) Hne). exact IH.
Qed.

Lemma files_in_remove_same d n (l : list (string * string * frame)) :
  map (fun '(_, n, f) => (n, f))
      (filter (fun '(d', _, _) => String.eqb d' d)
              (filter (fun '(d', n', _) => negb (String.eqb d' d && String.eqb n' n)) l))
  = filter (fun p => negb (String.eqb (fst p) n))
           (map (fun '(_, n, f) => (n, f)) (filter (fun '(d', _, _) => String.eqb d' d) l)).
Proof.
  pose proof (files_in_write d n (mkFrame [] []) l) as H.
  rewrite filter_app, map_app in H. simpl in H. rewrite String.eqb_refl in H.
  simpl in H. apply app_inv_tail in H. exact H.
Qed.

Lemma nodup_single {A} (l : list A) x (P : Prop) :
  NoDup l -> (forall y, In y l <-> P /\ y = x) -> (P -> l = [x]) /\ (~ P -> l = []).
Proof.
  intros Hd H. split.
  - intro HP. destruct l as [|a l].
    + exfalso. apply (proj2 (H x)). auto.
    + assert (a = x) as -> by (apply (H a); left; reflexivity).
      destruct l as [|b l]; [reflexivity|].
      assert (b = x) as -> by (apply (H b); right; left; reflexivity).
      inversion Hd; subst. exfalso. apply H2. left. reflexivity.
  - intro HP. destruct l as [|a l]; [reflexivity|].
    exfalso. apply HP. apply (H a). left. reflexivity.
Qed.

Lemma plain_startswith_dot s x : plain_symbol s = true -> startswith "." (s ++ x) = false.
Proof.
  intro H. destruct (plain_head s H) as (a & s' & -> & Ha). cbn [append startswith].
  rewrite andb_true_r. destruct (char_eqb "." a) eqn:E; [|reflexivity].
  unfold char_eqb in E. apply Ascii.eqb_eq in E. subst. discriminate.
Qed.

Lemma sweep_one_name folder threshold base t :
  (Z.abs t < 10 ^ 4300)%Z ->
  sweep_one folder threshold (base ++ "." ++ str_of_Z t ++ ".parquet")
  = match fromtimestamp t with
    | FtOverflow => throw (OverflowError "timestamp out of range for platform time_t")
    | FtValueError => ret tt
    | FtOk ft => if (ft <? threshold)%Z
                 then os_remove folder (base ++ "." ++ str_of_Z t ++ ".parquet")
                 else ret tt
    end.
Proof.
  intro Hd. unfold sweep_one.
  replace (endswith ".parquet" (base ++ "." ++ str_of_Z t ++ ".parquet")) with true
    by (symmetry; change ("." ++ str_of_Z t ++ ".parquet")%string
          with ((String "." (str_of_Z t)) ++ ".parquet")%string;
        rewrite <- str_app_assoc; apply endswith_app).
  rewrite rsplit_cache_name by apply str_of_Z_no_dot. simpl.
  rewrite int_of_str_of_Z by exact Hd. reflexivity.
Qed.

(** Removing every listed name of [d] one by one. *)
Lemma for_each_remove_run d names w :
  exists w', for_each names (fun n => os_remove d n) w = (Ok tt, w') /\
    (forall p, In p (files_in d w') -> In p (files_in d w) /\ ~ In (fst p) names).
Proof.
  revert w. induction names as [|x xs IH]; intro w; simpl.
  - eexists. split; [reflexivity|]. intros p Hp. split; [exact Hp|intros []].
  - unfold bind at 1. unfold os_remove at 1.
    destruct (IH (record (OpRemove d x)
                   (mkWorld (w_dirs w)
                      (filter (fun '(d', n', _) => negb (String.eqb d' d && String.eqb n' x))
                              (w_files w)) (w_now w) (w_trace w)))) as (w' & E & Hw').
    eexists. split; [exact E|]. intros p Hp. apply Hw' in Hp as [Hp Hn].
    unfold files_in in Hp. simpl in Hp. rewrite files_in_remove_same in Hp.
    apply filter_In in Hp as [Hp Hx]. split; [exact Hp|].
    intros [Ex|Ex]; [|exact (Hn Ex)]. subst x. rewrite String.eqb_refl in Hx. discriminate.
Qed.

Lemma keeps_sweep_one D folder thr x : ~ D folder -> keeps D (sweep_one folder thr x).
Proof.
  intro Hf. unfold sweep_one.
  destruct (negb _); [apply keeps_ret|].
  destruct (3 <=? _)%nat; [|apply keeps_ret].
  destruct (int_of_str _) as [t|]; [|apply keeps_ret].
  destruct (fromtimestamp t) as [ft| |]; [|apply keeps_ret|apply keeps_throw].
  destruct (ft <? thr)%Z; [apply keeps_os_remove; exact Hf|apply keeps_ret].
Qed.

Lemma keeps_remove_old_cache D folder days : ~ D folder -> keeps D (remove_old_cache folder days).
Proof.
  intro Hf. unfold remove_old_cache.
  apply keeps_bind; [apply keeps_os_exists|]. intro e.
  destruct (negb e); [apply keeps_ret|].
  apply keeps_bind; [apply keeps_get_now|]. intro now.
  apply keeps_bind; [apply keeps_os_listdir|]. intro names.
  induction names as [|x xs IH]; simpl; [apply keeps_ret|].
  apply keeps_bind; [apply keeps_sweep_one; exact Hf|]. intro. exact IH.
Qed.

Lemma keeps_lookup_cache D cd tf ykey syms : keeps D (lookup_cache cd tf ykey syms).
Proof.
  induction syms as [|s rest IH]; simpl; [apply keeps_ret|].
  apply keeps_bind; [apply keeps_glob|]. intro files.
  destruct (sorted_desc files); [apply keeps_ret|].
  apply keeps_bind; [apply keeps_read_parquet|]. intro.
  apply keeps_bind; [exact IH|]. intro. apply keeps_ret.
Qed.

Lemma keeps_rebuild D dir_path cd tf years ykey ts syms :
  ~ D cd -> keeps D (rebuild dir_path cd tf years ykey ts syms).
Proof.
  intro Hc. unfold rebuild. apply keeps_wrap. apply keeps_bind.
  - induction syms as [|s rest IH]; simpl; [apply keeps_ret|].
    apply keeps_bind.
    + unfold load_symbol.
      apply keeps_bind; [apply keeps_os_exists|]. intro e.
      destruct (negb e); [apply keeps_ret|].
      apply keeps_bind; [apply keeps_glob|]. intro mf.
      destruct mf; [apply keeps_ret|].
      destruct (match years with None => _ | Some _ => _ end); [apply keeps_ret|].
      apply keeps_bind; [apply keeps_read_all|]. intro dfs.
      destruct dfs; [apply keeps_ret|].
      apply keeps_bind; [apply keeps_to_parquet; exact Hc|]. intro. apply keeps_ret.
    + intro. apply keeps_bind; [exact IH|]. intro. apply keeps_ret.
  - intro dfs. destruct dfs; [apply keeps_throw|apply keeps_ret].
Qed.

Lemma keeps_load_symbol D dir_path cd tf years ykey ts sym :
  ~ D cd -> keeps D (load_symbol dir_path cd tf years ykey ts sym).
Proof.
  intro Hc. unfold load_symbol.
  apply keeps_bind; [apply keeps_os_exists|]. intro e.
  destruct (negb e); [apply keeps_ret|].
  apply keeps_bind; [apply keeps_glob|]. intro mf.
  destruct mf; [apply keeps_ret|].
  destruct (match years with None => _ | Some _ => _ end); [apply keeps_ret|].
  apply keeps_bind; [apply keeps_read_all|]. intro dfs.
  destruct dfs; [apply keeps_ret|].
  apply keeps_bind; [apply keeps_to_parquet; exact Hc|]. intro. apply keeps_ret.
Qed.

Lemma nodup_write (l : list (string * frame)) n f :
  NoDup (map fst l) -> NoDup (map fst (filter (fun p => negb (String.eqb (fst p) n)) l ++ [(n, f)])%list).
Proof.
  induction l as [|[a b] l IH]; intro H; simpl; [constructor; [intros []|constructor]|].
  inversion H as [|? ? Ha Hl]; subst.
  destruct (String.eqb_spec a n) as [->|Hne]; simpl; [exact (IH Hl)|].
  constructor; [|exact (IH Hl)].
  rewrite map_app. intro Hin. apply in_app_iff in Hin as [Hin|Hin];
    [|destruct Hin as [E|[]]; simpl in E; congruence].
  apply Ha. apply in_map_iff in Hin as ([x y] & Ex & Hx). apply filter_In in Hx as [Hx _].
  simpl in Ex. subst. apply in_map_iff. eexists. split; [|exact Hx]. reflexivity.
Qed.

(** The places [load_kline] reads: the kline directory and the symbol
    directories. *)
Definition src_places (dir : string) (syms : list string) (d : string) : Prop :=
  d = dir \/ exists s, In s syms /\ d = path_join dir s.

Section TwoCalls.

Variables (dir tf : string) (years : option (list Z)) (syms : list string) (wR : world).

Hypothesis Hplain : forallb plain_symbol syms = true.
Hypothesis Htf : existsb (String.eqb tf) valid_timeframes = true.

Local Abbreviation cd := (cache_dir_of dir).
Local Abbreviation ykey := (years_key years).
Local Abbreviation D := (src_places dir syms).

Lemma plain_in s : In s syms -> plain_symbol s = true.
Proof. intro Hs. exact (proj1 (forallb_forall _ _) Hplain s Hs). Qed.

Lemma D_cd : ~ D cd.
Proof.
  intros [E|(s & Hs & E)].
  - exact (cache_dir_not_dir dir E).
  - exact (symbol_dir_not_cache dir s (plain_in s Hs) (eq_sym E)).
Qed.

Lemma D_sym s : In s syms -> D (path_join dir s).
Proof. intro Hs. right. eauto. Qed.

(** What loading symbol [s] from the source gives on the worlds that agree
    with [wR] on the sources. *)
Definition outcome (s : string) : option frame :=
  match fst (load_symbol dir cd tf years ykey 0 s wR) with
  | Ok o => o
  | Err _ => None
  end.

(** The tables [load_kline] returns when it rebuilds. *)
Definition expected : res frame :=
  match somes (map outcome syms) with
  | [] => Err (RuntimeError (FileNotFoundError "No data found for symbols"))
  | dfs => Ok (sort_values (combine_dfs dfs))
  end.

(** The cache directory holds, for each symbol of [P] that has a table, one
    entry of timestamp [ts] with that table, and nothing else. *)
Definition cache_state (ts : Z) (P : list string) (w : world) : Prop :=
  NoDup (map fst (files_in cd w)) /\
  forall n f, In (n, f) (files_in cd w) <->
              exists s, In s P /\ outcome s = Some f /\ n = cache_name s tf ykey ts.

Lemma load_symbol_outcome ts s w :
  In s syms -> agree_on D wR w ->
  exists w', load_symbol dir cd tf years ykey ts s w = (Ok (outcome s), w') /\
    agree_on D wR w' /\
    match outcome s with
    | None => w_files w' = w_files w
    | Some df =>
        w_files w' =
        (filter (fun '(d', n', _) => negb (String.eqb d' cd && String.eqb n' (cache_name s tf ykey ts)))
                (w_files w) ++ [(cd, cache_name s tf ykey ts, df)])%list
    end.
Proof.
  intros Hs Ha.
  destruct (load_symbol_run dir cd tf years ykey ts s w) as (o & w' & E & _ & Hf).
  destruct (rel_load_symbol D dir cd tf years ykey 0 ts s (D_sym s Hs) D_cd wR w Ha) as [Ef _].
  rewrite E in Ef. simpl in Ef.
  assert (Eo : outcome s = o) by (unfold outcome; rewrite Ef; reflexivity).
  rewrite Eo. exists w'. split; [exact E|]. split; [|exact Hf].
  apply (agree_trans _ _ _ _ Ha). exact (keeps_load_symbol D dir cd tf years ykey ts s D_cd w _ _ E).
Qed.

Lemma cache_state_step ts P s w w' :
  In s syms -> (forall x, In x P -> In x syms) -> cache_state ts P w ->
  match outcome s with
  | None => w_files w' = w_files w
  | Some df =>
      w_files w' =
      (filter (fun '(d', n', _) => negb (String.eqb d' cd && String.eqb n' (cache_name s tf ykey ts)))
              (w_files w) ++ [(cd, cache_name s tf ykey ts, df)])%list
  end ->
  cache_state ts (P ++ [s]) w'.
Proof.
  intros Hs HP [Hnd Hc] Hw. destruct (outcome s) as [df|] eqn:Eo.
  - assert (Ef : files_in cd w' =
                 (filter (fun p => negb (String.eqb (fst p) (cache_name s tf ykey ts))) (files_in cd w)
                  ++ [(cache_name s tf ykey ts, df)])%list)
      by (unfold files_in; rewrite Hw; apply files_in_write).
    unfold cache_state. rewrite Ef. split; [apply nodup_write; exact Hnd|].
    intros n f. rewrite in_app_iff, filter_In.
    destruct (String.eqb_spec n (cache_name s tf ykey ts)) as [->|Hne]; split.
    + intros [[_ Hx]|[E|[]]]; [simpl in Hx; rewrite String.eqb_refl in Hx; discriminate|].
      inversion E; subst. exists s. rewrite in_app_iff. simpl. auto.
    + intros (s' & Hs' & Eo' & En). right. left.
      assert (s = s') as <-.
      { apply (cache_name_sym_inj s s' tf ykey ts); [apply plain_in; exact Hs| |exact En].
        apply in_app_iff in Hs' as [H|[<-|[]]]; apply plain_in; auto. }
      congruence.
    + intros [[Hx _]|[E|[]]]; [|congruence].
      apply Hc in Hx as (s' & Hs' & Eo' & En). exists s'. rewrite in_app_iff. auto.
    + intros (s' & Hs' & Eo' & En). left. split; [|simpl; apply negb_true_iff, String.eqb_neq; exact Hne].
      apply Hc. exists s'. split; [|auto].
      apply in_app_iff in Hs' as [H|[<-|[]]]; [exact H|]. congruence.
  - assert (Ef : files_in cd w' = files_in cd w) by (apply files_in_of; exact Hw).
    unfold cache_state. rewrite Ef. split; [exact Hnd|]. intros n f. rewrite Hc. split.
    + intros (s' & Hs' & R). exists s'. rewrite in_app_iff. auto.
    + intros (s' & Hs' & Eo' & En). exists s'. split; [|auto].
      apply in_app_iff in Hs' as [H|[<-|[]]]; [exact H|]. congruence.
Qed.

(** The rebuild loop loads every symbol and leaves exactly their entries. *)
Lemma load_symbols_run ts L P w :
  (forall x, In x L -> In x syms) -> (forall x, In x P -> In x syms) ->
  agree_on D wR w -> cache_state ts P w ->
  exists w', load_symbols dir cd tf years ykey ts L w = (Ok (somes (map outcome L)), w') /\
    agree_on D wR w' /\ cache_state ts (P ++ L) w'.
Proof.
  revert P w. induction L as [|s L IH]; intros P w HL HP Ha Hc.
  - exists w. rewrite app_nil_r. auto.
  - assert (Hs : In s syms) by (apply HL; left; reflexivity).
    destruct (load_symbol_outcome ts s w Hs Ha) as (w1 & E1 & Ha1 & Hf1).
    pose proof (cache_state_step ts P s w w1 Hs HP Hc Hf1) as Hc1.
    destruct (IH (P ++ [s])%list w1) as (w2 & E2 & Ha2 & Hc2).
    { intros x Hx. apply HL. right. exact Hx. }
    { intros x Hx. apply in_app_iff in Hx as [H|[<-|[]]]; auto. }
    { exact Ha1. } { exact Hc1. }
    simpl. rewrite (bind_ok_eq _ _ _ _ _ E1), (bind_ok_eq _ _ _ _ _ E2).
    exists w2. split; [destruct (outcome s); reflexivity|]. split; [exact Ha2|].
    rewrite <- app_assoc in Hc2. exact Hc2.
Qed.

Lemma cache_state_empty ts w : files_in cd w = [] -> cache_state ts [] w.
Proof.
  intro E. unfold cache_state. rewrite E. split; [constructor|]. intros n f. split; [intros []|].
  intros (s & [] & _).
Qed.

Lemma load_symbols_ok ts L w :
  (forall x, In x L -> In x syms) -> agree_on D wR w ->
  exists w', load_symbols dir cd tf years ykey ts L w = (Ok (somes (map outcome L)), w') /\
    agree_on D wR w'.
Proof.
  revert w. induction L as [|s L IH]; intros w HL Ha; [exists w; auto|].
  assert (Hs : In s syms) by (apply HL; left; reflexivity).
  destruct (load_symbol_outcome ts s w Hs Ha) as (w1 & E1 & Ha1 & _).
  destruct (IH w1) as (w2 & E2 & Ha2); [intros x Hx; apply HL; right; exact Hx|exact Ha1|].
  simpl. rewrite (bind_ok_eq _ _ _ _ _ E1), (bind_ok_eq _ _ _ _ _ E2).
  exists w2. split; [destruct (outcome s); reflexivity|exact Ha2].
Qed.

Lemma rebuild_of_loop ts w dfs w1 :
  load_symbols dir cd tf years ykey ts syms w = (Ok dfs, w1) ->
  dfs = somes (map outcome syms) ->
  rebuild dir cd tf years ykey ts syms w = (expected, w1).
Proof.
  intros E ->. unfold rebuild, wrap_runtime. rewrite (bind_ok_eq _ _ _ _ _ E).
  unfold expected. destruct (somes (map outcome syms)); reflexivity.
Qed.

(** A rebuild gives [expected]. *)
Lemma rebuild_expected ts w :
  agree_on D wR w ->
  exists w', rebuild dir cd tf years ykey ts syms w = (expected, w') /\ agree_on D wR w'.
Proof.
  intro Ha. destruct (load_symbols_ok ts syms w (fun x Hx => Hx) Ha) as (w1 & E & Ha1).
  exists w1. split; [exact (rebuild_of_loop ts w _ w1 E eq_refl)|exact Ha1].
Qed.

Lemma name_no_dot s ts : In s syms -> startswith "." (cache_name s tf ykey ts) = false.
Proof. intro Hs. unfold cache_name. apply plain_startswith_dot. apply plain_in. exact Hs. Qed.

(** The lookup of a symbol finds its entry, when it has one. *)
Lemma glob_cache ts w s :
  In s syms -> cache_state ts syms w ->
  glob cd (cache_pattern s tf ykey) w =
  (Ok (match outcome s with Some _ => [cache_name s tf ykey ts] | None => [] end),
   record (OpGlob cd (cache_pattern s tf ykey)) w).
Proof.
  intros Hs [Hnd Hc]. unfold glob. cbv beta zeta.
  assert (Hiff : forall y,
    In y (filter (fun n => gmatch (cache_pattern s tf ykey) n &&
                           negb (startswith "." n && negb (startswith "." (cache_pattern s tf ykey))))
                 (map fst (files_in cd w)))
    <-> (exists f, outcome s = Some f) /\ y = cache_name s tf ykey ts).
  { intro y. rewrite filter_In. split.
    - intros [Hy Hg]. apply in_map_iff in Hy as ([n f] & En & Hin). simpl in En. subst n.
      apply Hc in Hin as (s' & Hs' & Eo & ->).
      rewrite gmatch_cache_name in Hg
        by (apply plain_in; assumption) || apply valid_tf_no_star, Htf || apply years_key_no_star.
      apply andb_true_iff in Hg as [Hg _]. apply String.eqb_eq in Hg. subst s'. eauto.
    - intros [[f Eo] ->]. split.
      + apply in_map_iff. exists (cache_name s tf ykey ts, f). split; [reflexivity|].
        apply Hc. eauto.
      + rewrite gmatch_cache_name
          by (apply plain_in; assumption) || apply valid_tf_no_star, Htf || apply years_key_no_star.
        rewrite String.eqb_refl, name_no_dot by exact Hs. reflexivity. }
  destruct (nodup_single _ _ _ (NoDup_filter _ Hnd) Hiff) as [H1 H2].
  destruct (outcome s) eqn:Eo.
  - rewrite H1 by eauto. reflexivity.
  - rewrite H2 by (intros [f Hf]; discriminate). reflexivity.
Qed.

Lemma lookup_name ts w s df :
  In s syms -> cache_state ts syms w -> outcome s = Some df ->
  lookup_file cd (cache_name s tf ykey ts) w = Some df.
Proof.
  intros Hs [_ Hc] Eo. unfold lookup_file.
  destruct (find _ _) as [[n f]|] eqn:E.
  - apply find_some in E as [Hin En]. simpl in En. apply String.eqb_eq in En. subst n.
    apply Hc in Hin as (s' & Hs' & Eo' & En).
    apply cache_name_sym_inj in En; [|apply plain_in; assumption..]. subst s'. simpl. congruence.
  - exfalso. assert (Hin : In (cache_name s tf ykey ts, df) (files_in cd w)) by (apply Hc; eauto).
    pose proof (find_none _ _ E _ Hin) as F. simpl in F. rewrite String.eqb_refl in F. discriminate.
Qed.

(** The cache lookup on a complete cache directory. *)
Lemma lookup_run ts L w :
  (forall x, In x L -> In x syms) -> cache_state ts syms w ->
  exists w', lookup_cache cd tf ykey L w = (Ok (all_some (map outcome L)), w') /\
             w_files w' = w_files w.
Proof.
  revert w. induction L as [|s L IH]; intros w HL Hc; [exists w; auto|].
  assert (Hs : In s syms) by (apply HL; left; reflexivity).
  cbn [lookup_cache]. rewrite (bind_ok_eq _ _ _ _ _ (glob_cache ts w s Hs Hc)).
  cbn [map all_some]. destruct (outcome s) as [df|] eqn:Eo.
  - cbn [sorted_desc sort_by insert_by].
    assert (Er : read_parquet cd (cache_name s tf ykey ts)
                   (record (OpGlob cd (cache_pattern s tf ykey)) w)
                 = (Ok df, record (OpRead cd (cache_name s tf ykey ts))
                                  (record (OpGlob cd (cache_pattern s tf ykey)) w))).
    { rewrite read_parquet_eq, (lookup_name ts (record (OpGlob cd (cache_pattern s tf ykey)) w) s df Hs Hc Eo). reflexivity. }
    rewrite (bind_ok_eq _ _ _ _ _ Er).
    destruct (IH (record (OpRead cd (cache_name s tf ykey ts))
                   (record (OpGlob cd (cache_pattern s tf ykey)) w))) as (w2 & E2 & F2).
    { intros x Hx. apply HL. right. exact Hx. }
    { exact Hc. }
    rewrite (bind_ok_eq _ _ _ _ _ E2). exists w2. split; [reflexivity|exact F2].
  - eexists. split; [reflexivity|reflexivity].
Qed.

(** The cache lookup on an empty cache directory misses at once. *)
Lemma lookup_empty L w :
  L <> [] -> files_in cd w = [] ->
  exists w', lookup_cache cd tf ykey L w = (Ok None, w') /\ agree_on D w w' /\
             w_files w' = w_files w.
Proof.
  intros HL He. destruct L as [|s L]; [congruence|].
  cbn [lookup_cache]. unfold bind at 1. unfold glob at 1. cbv beta zeta. rewrite He.
  eexists. split; [reflexivity|]. split; [split; reflexivity|reflexivity].
Qed.

Lemma fromtimestamp_no_overflow ts :
  (- 2 ^ 63 <= ts < 2 ^ 63)%Z -> fromtimestamp ts <> FtOverflow.
Proof.
  intros H. unfold fromtimestamp.
  replace ((ts <? - 2 ^ 63) || (2 ^ 63 <=? ts))%Z with false
    by (symmetry; apply orb_false_iff; split; [apply Z.ltb_ge|apply Z.leb_gt]; lia).
  destruct (_ || _); discriminate.
Qed.

Lemma for_each_ret {A} (xs : list A) w : for_each xs (fun _ => ret tt) w = (Ok tt, w).
Proof.
  revert w. induction xs as [|x xs IH]; intro w; [reflexivity|].
  simpl. unfold bind at 1. apply IH.
Qed.

(** The sweep of a cache directory whose entries all carry the timestamp
    [ts]: it removes all of them or none. *)
Lemma sweep_run ts P w :
  In cd (w_dirs w) -> cache_state ts P w -> (- 2 ^ 63 <= ts < 2 ^ 63)%Z ->
  exists w', remove_old_cache cd 1 w = (Ok tt, w') /\ agree_on D w w' /\
             (w_files w' = w_files w \/ files_in cd w' = []).
Proof.
  intros Hd [_ Hc] Hts.
  assert (H : exists w', remove_old_cache cd 1 w = (Ok tt, w') /\
                         (w_files w' = w_files w \/ files_in cd w' = [])).
  { unfold remove_old_cache. bstep. rewrite existsb_in by exact Hd. cbv beta iota delta [negb].
    bstep. bstep.
    set (names := map fst (files_in cd (record (OpExists cd) w))).
    assert (Hn : forall x, In x names -> exists s, x = cache_name s tf ykey ts).
    { intros x Hx. apply in_map_iff in Hx as ([n f] & En & Hin). simpl in En. subst n.
      apply Hc in Hin as (s & _ & _ & ->). eauto. }
    set (thr := (w_now (record (OpExists cd) w) - 1 * 86400)%Z).
    set (w3 := record (OpListdir cd) (record (OpExists cd) w)).
    assert (Hkeep : (forall x, In x names -> forall w0, sweep_one cd thr x w0 = ret tt w0) ->
                    exists w', for_each names (sweep_one cd thr) w3 = (Ok tt, w') /\
                               (w_files w' = w_files w \/ files_in cd w' = [])).
    { intro Hx. rewrite (for_each_ext names _ (fun _ => ret tt) Hx w3), for_each_ret.
      exists w3. split; [reflexivity|left; reflexivity]. }
    destruct (fromtimestamp ts) as [ft| |] eqn:Eft.
    - destruct (ft <? thr)%Z eqn:Elt.
      + rewrite (for_each_ext names _ (fun n => os_remove cd n)).
        * destruct (for_each_remove_run cd names w3) as (w' & E & Hw').
          exists w'. split; [exact E|right].
          destruct (files_in cd w') as [|p ps] eqn:Ep; [reflexivity|exfalso].
          assert (Hp : In p (p :: ps)) by (left; reflexivity).
          apply Hw' in Hp as [Hp Hnot]. apply Hnot. exact (in_map fst _ _ Hp).
        * intros x Hx w0. destruct (Hn x Hx) as (s & ->).
          rewrite cache_name_split, sweep_one_name, Eft, Elt by exact (time_t_digits ts Hts). reflexivity.
      + apply Hkeep. intros x Hx w0. destruct (Hn x Hx) as (s & ->).
        rewrite cache_name_split, sweep_one_name, Eft, Elt by exact (time_t_digits ts Hts). reflexivity.
    - apply Hkeep. intros x Hx w0. destruct (Hn x Hx) as (s & ->).
      rewrite cache_name_split, sweep_one_name, Eft by exact (time_t_digits ts Hts). reflexivity.
    - exfalso. exact (fromtimestamp_no_overflow ts Hts Eft). }
  destruct H as (w' & E & Hf). exists w'. split; [exact E|]. split; [|exact Hf].
  exact (keeps_remove_old_cache D cd 1 D_cd w _ _ E).
Qed.

Lemma remove_old_cache_empty w :
  In cd (w_dirs w) -> files_in cd w = [] ->
  remove_old_cache cd 1 w = (Ok tt, record (OpListdir cd) (record (OpExists cd) w)).
Proof.
  intros Hd He. unfold remove_old_cache. bstep. rewrite existsb_in by exact Hd.
  cbv beta iota delta [negb]. bstep. bstep.
  change (files_in cd (record (OpExists cd) w)) with (files_in cd w). rewrite He. reflexivity.
Qed.

Lemma all_some_nil l : all_some l = Some [] -> l = [].
Proof.
  destruct l as [|[f|] l]; simpl; [reflexivity| |discriminate].
  destruct (all_some l); discriminate.
Qed.

(** The first call, on an empty cache directory, rebuilds and leaves the
    cache directory with one entry per symbol that has a table. *)
Lemma first_run w2 :
  syms <> [] -> In cd (w_dirs w2) -> files_in cd w2 = [] -> agree_on D wR w2 ->
  exists w', (remove_old_cache cd 1 ;;; after_sweep dir cd tf years syms) w2 = (expected, w') /\
    agree_on D wR w' /\ cache_state (w_now w2) syms w'.
Proof.
  intros Hne Hd He Ha.
  rewrite (bind_ok_eq _ _ _ _ _ (remove_old_cache_empty w2 Hd He)).
  unfold after_sweep. bstep.
  destruct (lookup_empty syms (record (OpListdir cd) (record (OpExists cd) w2)) Hne He)
    as (w4 & E4 & A4 & F4).
  rewrite (bind_ok_eq _ _ _ _ _ E4).
  assert (Ha4 : agree_on D wR w4) by exact (agree_trans _ _ _ _ Ha A4).
  assert (He4 : files_in cd w4 = []) by (rewrite (files_in_of cd _ w4 F4); exact He).
  destruct (load_symbols_run (w_now w2) syms [] w4 (fun x Hx => Hx) (fun x Hx => match Hx with end)
              Ha4 (cache_state_empty _ _ He4)) as (w5 & E5 & A5 & C5).
  exists w5. split; [exact (rebuild_of_loop _ w4 _ w5 E5 eq_refl)|]. split; [exact A5|exact C5].
Qed.

(** The second call, on the cache directory the first one left, returns
    the same tables, from the cache or from a rebuild. *)
Lemma second_run t1 w2 :
  syms <> [] -> In cd (w_dirs w2) -> cache_state t1 syms w2 -> (- 2 ^ 63 <= t1 < 2 ^ 63)%Z ->
  agree_on D wR w2 ->
  exists w', (remove_old_cache cd 1 ;;; after_sweep dir cd tf years syms) w2 = (expected, w').
Proof.
  intros Hne Hd Hc Hts Ha.
  destruct (sweep_run t1 syms w2 Hd Hc Hts) as (w3 & E3 & A3 & [Hf|He]);
    rewrite (bind_ok_eq _ _ _ _ _ E3); unfold after_sweep; bstep.
  - assert (Hc3 : cache_state t1 syms w3)
      by (unfold cache_state; rewrite (files_in_of cd w2 w3 Hf); exact Hc).
    destruct (lookup_run t1 syms w3 (fun x Hx => Hx) Hc3) as (w4 & E4 & F4).
    rewrite (bind_ok_eq _ _ _ _ _ E4).
    destruct (all_some (map outcome syms)) as [dfs|] eqn:Ea.
    + exists w4. unfold ret. f_equal. unfold expected. rewrite (all_some_somes _ _ Ea).
      destruct dfs as [|df dfs]; [|reflexivity]. exfalso. apply Hne.
      apply all_some_nil in Ea. apply map_eq_nil in Ea. exact Ea.
    + destruct (rebuild_expected (w_now w3) w4) as (w5 & E5 & _); [|exists w5; exact E5].
      exact (agree_trans _ _ _ _ (agree_trans _ _ _ _ Ha A3)
                         (keeps_lookup_cache D cd tf ykey syms w3 _ _ E4)).
  - destruct (lookup_empty syms w3 Hne He) as (w4 & E4 & A4 & _).
    rewrite (bind_ok_eq _ _ _ _ _ E4).
    destruct (rebuild_expected (w_now w3) w4) as (w5 & E5 & _); [|exists w5; exact E5].
    exact (agree_trans _ _ _ _ (agree_trans _ _ _ _ Ha A3) A4).
Qed.

End TwoCalls.

(** The steps of [load_kline] before the sweep, for valid arguments and an
    existing kline directory: they only create the cache directory. *)
Lemma load_kline_prelude source market market_sub tf years s0 ss w :
  existsb (String.eqb tf) valid_timeframes = true ->
  In (kline_dir source market market_sub) (w_dirs w) ->
  exists w2,
    load_kline source market market_sub tf years (Some (s0 :: ss)) w =
    (remove_old_cache (cache_dir_of (kline_dir source market market_sub)) 1 ;;;
     after_sweep (kline_dir source market market_sub)
                 (cache_dir_of (kline_dir source market market_sub)) tf years (s0 :: ss)) w2 /\
    w_files w2 = w_files w /\ w_now w2 = w_now w /\
    In (cache_dir_of (kline_dir source market market_sub)) (w_dirs w2) /\
    (forall d, d <> cache_dir_of (kline_dir source market market_sub) ->
               existsb (String.eqb d) (w_dirs w2) = existsb (String.eqb d) (w_dirs w)).
Proof.
  intros Htf Hdir.
  unfold load_kline. rewrite Htf. cbv beta iota zeta delta [negb].
  bstep. rewrite existsb_in by exact Hdir. cbv beta iota.
  bstep.
  destruct (existsb (String.eqb (cache_dir_of (kline_dir source market market_sub))) _)
    eqn:Ec; cbv beta iota; bstep.
  - eexists. split; [reflexivity|]. split; [reflexivity|]. split; [reflexivity|].
    split; [|intros; reflexivity].
    apply existsb_exists in Ec as (x & Hx & Ex). apply String.eqb_eq in Ex. subst. exact Hx.
  - eexists. split; [reflexivity|]. split; [reflexivity|]. split; [reflexivity|].
    split; [apply in_or_app; right; left; reflexivity|].
    intros d Hd. simpl. rewrite existsb_app. simpl.
    rewrite (proj2 (String.eqb_neq d _) Hd), orb_false_r. reflexivity.
Qed.

(** [load_kline] on a missing kline directory. *)
Lemma load_kline_no_dir source market market_sub tf years s0 ss w :
  existsb (String.eqb tf) valid_timeframes = true ->
  existsb (String.eqb (kline_dir source market market_sub)) (w_dirs w) = false ->
  load_kline source market market_sub tf years (Some (s0 :: ss)) w =
  (Err (FileNotFoundError (kline_dir source market market_sub)),
   record (OpExists (kline_dir source market market_sub)) w).
Proof.
  intros Htf Hd. unfold load_kline. rewrite Htf. cbv beta iota zeta delta [negb].
  bstep. rewrite Hd. reflexivity.
Qed.

Lemma agree_of_dirs D cd w w2 :
  ~ D cd ->
  (forall d, d <> cd -> existsb (String.eqb d) (w_dirs w2) = existsb (String.eqb d) (w_dirs w)) ->
  w_files w2 = w_files w -> agree_on D w w2.
Proof.
  intros Hc Hd Hf. split; intros d HD.
  - symmetry. apply Hd. intros ->. exact (Hc HD).
  - symmetry. apply files_in_of. exact Hf.
Qed.

(** The world of a later call: the files and directories as they were
    left, the clock at [t]. *)
Definition set_now (t : Z) (w : world) : world := mkWorld (w_dirs w) (w_files w) t (w_trace w).

(** ** C9 *)

(** A source tree with BTCUSDT only, and a cache directory holding a fresh
    entry of ETHUSDT, written [10000] seconds before the clock. *)
Definition world_partial : world :=
  mkWorld [spot_dir; spot_cache; btc_dir]
    [(spot_cache, cache_name "ETHUSDT" "1m" "all" 1759990000, eth_2025);
     (btc_dir, "BTCUSDT_kline_1m_2025.parquet", btc_2025)]
    1760000000 [].

(** C9 (counterexample): with a cache entry of ETHUSDT left from before,
    the first call for [BTCUSDT, ETHUSDT] misses on BTCUSDT and rebuilds
    from the source tree, which has no ETHUSDT: it returns the BTCUSDT rows
    only. It has written the BTCUSDT entry, so the second call with the same
    arguments, on the same source tree, finds both entries and returns the
    BTCUSDT and the ETHUSDT rows. *)
Lemma load_kline_twice_partial_cache :
  fst (load_kline "binance" "spot" "um" "1m" None (Some ["BTCUSDT"; "ETHUSDT"]) world_partial)
  = Ok (sort_values (combine_dfs [btc_2025])) /\
  fst (load_kline "binance" "spot" "um" "1m" None (Some ["BTCUSDT"; "ETHUSDT"])
         (snd (load_kline "binance" "spot" "um" "1m" None (Some ["BTCUSDT"; "ETHUSDT"])
                          world_partial)))
  = Ok (sort_values (combine_dfs [btc_2025; eth_2025])) /\
  sort_values (combine_dfs [btc_2025]) <> sort_values (combine_dfs [btc_2025; eth_2025]).
Proof. vm_compute. split; [reflexivity|]. split; [reflexivity|]. discriminate. Qed.

(** C9 (amended): start from a world whose cache directory is empty or
    missing, with plain symbols (non-empty, letters and digits) and a clock
    inside the platform's [time_t]. A second call with the same arguments,
    on the directories and files the first call left and at any clock,
    returns the same result as the first: the same table or the same
    error. *)
Theorem load_kline_twice source market market_sub tf years syms w t2 :
  forallb plain_symbol syms = true ->
  files_in (cache_dir_of (kline_dir source market market_sub)) w = [] ->
  (- 2 ^ 63 <= w_now w < 2 ^ 63)%Z ->
  fst (load_kline source market market_sub tf years (Some syms)
         (set_now t2 (snd (load_kline source market market_sub tf years (Some syms) w))))
  = fst (load_kline source market market_sub tf years (Some syms) w).
Proof.
  intros Hplain He Hts.
  destruct (existsb (String.eqb tf) valid_timeframes) eqn:Htf;
    [|unfold load_kline; rewrite Htf; reflexivity].
  destruct syms as [|s0 ss]; [unfold load_kline; rewrite Htf; reflexivity|].
  destruct (existsb (String.eqb (kline_dir source market market_sub)) (w_dirs w)) eqn:Ed.
  2: { rewrite (load_kline_no_dir source market market_sub tf years s0 ss w Htf Ed).
       cbn [snd].
       rewrite (load_kline_no_dir source market market_sub tf years s0 ss
                  (set_now t2 (record (OpExists (kline_dir source market market_sub)) w)) Htf Ed).
       reflexivity. }
  assert (Hin : In (kline_dir source market market_sub) (w_dirs w)).
  { apply existsb_exists in Ed as (x & Hx & Ex). apply String.eqb_eq in Ex. subst. exact Hx. }
  pose proof (D_cd (kline_dir source market market_sub) (s0 :: ss) Hplain) as Hc.
  destruct (load_kline_prelude source market market_sub tf years s0 ss w Htf Hin)
    as (w2 & E2 & F2 & N2 & C2 & X2).
  destruct (first_run (kline_dir source market market_sub) tf years (s0 :: ss) w Hplain w2)
    as (w1 & E1 & A1 & S1).
  { discriminate. } { exact C2. } { rewrite (files_in_of _ w w2 F2). exact He. }
  { exact (agree_of_dirs _ _ w w2 Hc X2 F2). }
  rewrite E2, E1. cbn [fst snd]. rewrite N2 in S1.
  assert (Hin1 : In (kline_dir source market market_sub) (w_dirs (set_now t2 w1))).
  { destruct A1 as [Ad _].
    pose proof (Ad (kline_dir source market market_sub) (or_introl eq_refl)) as Ed1.
    rewrite Ed in Ed1. symmetry in Ed1.
    apply existsb_exists in Ed1 as (x & Hx & Ex). apply String.eqb_eq in Ex. subst. exact Hx. }
  destruct (load_kline_prelude source market market_sub tf years s0 ss (set_now t2 w1) Htf Hin1)
    as (w3 & E3 & F3 & _ & C3 & X3).
  assert (S3 : cache_state (kline_dir source market market_sub) tf years w (w_now w) (s0 :: ss) w3).
  { unfold cache_state in *. rewrite (files_in_of _ w1 w3 F3). exact S1. }
  assert (A3 : agree_on (src_places (kline_dir source market market_sub) (s0 :: ss)) w w3).
  { apply (agree_trans _ _ _ _ A1). exact (agree_of_dirs _ _ (set_now t2 w1) w3 Hc X3 F3). }
  destruct (second_run (kline_dir source market market_sub) tf years (s0 :: ss) w Hplain Htf
              (w_now w) w3) as (w4 & E4).
  { discriminate. } { exact C3. } { exact S3. } { exact Hts. } { exact A3. }
  rewrite E3, E4. reflexivity.
Qed.

Lemma load_kline_twice_witness :
  fst (load_kline "binance" "spot" "um" "1m" None (Some ["BTCUSDT"; "ETHUSDT"])
         (set_now (1760000000 + 2 * 86400)
                  (snd (load_kline "binance" "spot" "um" "1m" None (Some ["BTCUSDT"; "ETHUSDT"])
                                   world_src))))
  = fst (load_kline "binance" "spot" "um" "1m" None (Some ["BTCUSDT"; "ETHUSDT"]) world_src) /\
  fst (load_kline "binance" "spot" "um" "1m" None (Some ["BTCUSDT"; "ETHUSDT"]) world_src)
  = Ok (sort_values (combine_dfs [combine_dfs [btc_2024; btc_2025]; eth_2025])).
Proof.
  split.
  - apply (load_kline_twice "binance" "spot" "um" "1m" None ["BTCUSDT"; "ETHUSDT"] world_src
             (1760000000 + 2 * 86400)).
    + reflexivity.
    + vm_compute. reflexivity.
    + simpl. lia.
  - vm_compute. reflexivity.
Defined.

(** * Further properties of the loader *)

(** ** What [remove_old_cache] removes *)
















(** ** A cache entry beyond [time_t] *)








(** ** [find_latest_file] *)














(** ** [load_parquet] on [aggTrades] *)



(** ** [load_kline_symbols] *)








(** ** The cache lookup *)










(** ** What [load_funding_rate] returns *)


(** ** Witnesses *)









(** End dates in the forms the three parsers read: [%Y%m%d], an ISO date
    with an hour only, an ISO date with fractional seconds, and a
    [%Y-%m-%d] token with month 13, which raises [ValueError]. *)
Definition iso_t10 : string := "BTCUSDT_1h_20240101_2025-01-15T10.parquet".




Lemma end_dates_iso :
  end_date_of iso_t10 = Some (mkDatetime (ordinal 2025 1 15 * usec_per_day + 36000000000) None) /\
  end_date_of "BTCUSDT_1h_20240101_2025-01-15T09:30:00.5.parquet"
    = Some (mkDatetime (ordinal 2025 1 15 * usec_per_day + 34200500000) None) /\
  end_date_of "BTCUSDT_1h_20240101_2025-13-01.parquet" = None.
Proof. vm_compute. auto. Qed.






(** Two monthly [aggTrades] files of BTCUSDT and one of another year. *)
Definition agg_dir : string :=
  path_join (path_join (path_join (path_join BASE_DIR "binance") "spot") "aggTrades") "BTCUSDT".

Definition world_agg : world :=
  mkWorld [agg_dir]
    [(agg_dir, "BTCUSDT_aggTrades_2025-02.parquet", btc_2025);
     (agg_dir, "BTCUSDT_aggTrades_2024-12.parquet", btc_2024);
     (agg_dir, "BTCUSDT_aggTrades_2025-01.parquet", eth_2025)]
    1760000000 [].

Definition run_agg :=
  load_parquet "binance" "spot" "um" "aggTrades" (Some "BTCUSDT") None (Some [2025%Z]) world_agg.


Lemma load_parquet_columns_witness :
  (exists d n f, In (d, n, f) (w_files world_pq) /\
     f_cols (result_frame run_pq)
     = map (fun c => if existsb (String.eqb (lower c)) ohlcv
                     then capitalize (lower c) else c) (f_cols f) /\
     f_rows (result_frame run_pq) = f_rows f) /\
  (exists d ns dfs, Forall2 (fun n f => lookup_file d n world_agg = Some f) ns dfs /\
     result_frame run_agg = combine_dfs dfs).
Proof.
  split.
  - apply (proj1 (load_parquet_columns "binance" "future" "um" "kline" "BTCUSDT" (Some "1h") None
                    world_pq (result_frame run_pq) (snd run_pq) ltac:(vm_compute; reflexivity))).
    discriminate.
  - apply (proj2 (load_parquet_columns "binance" "spot" "um" "aggTrades" "BTCUSDT" None
                    (Some [2025%Z]) world_agg (result_frame run_agg) (snd run_agg)
                    ltac:(vm_compute; reflexivity))).
    reflexivity.
Defined.











(** ** The column renaming *)







(** ** Moving averages of short blocks *)






